(** * Device creation with firmware-asset remediation (corellium-typescript)

    A shallow embedding of [src/errors.ts] and of the endpoints built by
    [createDevicesEndpoints] in [src/devices.ts]: [create] (with its
    fetch / register / retry loop), [list] and [search].

    The endpoints are asynchronous and talk to collaborators (the device
    API, [fetch], the file system, [process.env], the image API).  They are
    modelled in a state-and-exception monad over a state made of
      - the chronological trace of the calls sent to the collaborators, and
      - the scratch files written so far;
    the collaborators themselves are a [World] of answer functions of the
    history.  The recursion of [create] is not structural (it retries as
    long as the service reports missing assets), so [create] takes a bound
    on the number of attempts and answers [Pending] when it is used up. *)

From stdpp Require Import gmap strings list.
From Stdlib Require Import ZArith Strings.Byte Strings.Ascii.

(** ** src/errors.ts *)

(** [field?: string | null] *)
Inductive OptionalField : Type :=
  | field_undefined
  | field_null
  | field_string (s : string).

(** [interface RawSDKError] *)
Record RawSDKError : Type := {
  raw_error : string;
  raw_errorID : string;
  raw_field : OptionalField;
}.

(** [interface RawMissingFirmwareAssetError extends RawSDKError] *)
Record RawMissingFirmwareAssetError : Type := {
  raw_base : RawSDKError;
  raw_missingFwAssets : list string;
  raw_projectId : string;
}.

(** [class CorelliumSDKError extends Error]; [message] is the field set by
    [super(data.error)]. *)
Record CorelliumSDKError : Type := {
  sdk_message : string;
  sdk_errorID : string;
  sdk_field : OptionalField;
}.

Definition CorelliumSDKError_new (data : RawSDKError) : CorelliumSDKError :=
  {| sdk_message := raw_error data;
     sdk_errorID := raw_errorID data;
     sdk_field := raw_field data |}.

(** [class MissingFirmwareAssetError extends CorelliumSDKError] *)
Record MissingFirmwareAssetError : Type := {
  mfa_super : CorelliumSDKError;
  mfa_missingFwAssets : list string;
  mfa_projectId : string;
}.

Definition MissingFirmwareAssetError_new
    (data : RawMissingFirmwareAssetError) : MissingFirmwareAssetError :=
  {| mfa_super := CorelliumSDKError_new (raw_base data);
     mfa_missingFwAssets := raw_missingFwAssets data;
     mfa_projectId := raw_projectId data |}.

(** The error payload of a response, as the service sends it: the plain
    shape, or the shape extended with [missingFwAssets] and [projectId]. *)
Inductive ErrorPayload : Type :=
  | PlainPayload (data : RawSDKError)
  | MissingAssetsPayload (data : RawMissingFirmwareAssetError).

(** [payload.error] *)
Definition payload_error (p : ErrorPayload) : string :=
  match p with
  | PlainPayload d => raw_error d
  | MissingAssetsPayload d => raw_error (raw_base d)
  end.

(** [(payload as RawMissingFirmwareAssetError).missingFwAssets]:
    [None] stands for [undefined]. *)
Definition payload_missingFwAssets (p : ErrorPayload) : option (list string) :=
  match p with
  | PlainPayload _ => None
  | MissingAssetsPayload d => Some (raw_missingFwAssets d)
  end.

(** Truthiness of that property in an [if]: [undefined] is falsy, an array
    is an object and is truthy whatever its length. *)
Definition truthy (v : option (list string)) : bool :=
  match v with
  | None => false
  | Some _ => true
  end.

(** What is thrown. *)
Inductive Exn : Type :=
  | ExnCorelliumSDKError (e : CorelliumSDKError)
  | ExnError (message : string)
  | ExnRejected (reason : string).

(** ** Requests and responses *)

Inductive Patches : Type := corelliumd | jailbroken | nonjailbroken.

(** The request body without [patches]: the properties the example of
    [create] names, and the remaining optional ones as they were given. *)
Record Body : Type := {
  project : string;
  name : string;
  flavor : string;
  os : string;
  others : list (string * string);
}.

(** The parameter of [create]: [{ patches = 'jailbroken', ...body }]. *)
Record CreateArgs : Type := {
  arg_patches : option Patches;
  arg_body : Body;
}.

(** The body sent to [POST /v1/instances]: [{ ...body, patches: [patches] }]. *)
Record PostBody : Type := {
  post_body : Body;
  post_patches : list Patches;
}.

(** The [{ data, error }] answer of the API client. *)
Record ApiResponse : Type := {
  resp_data : option string;
  resp_error : option ErrorPayload;
}.

(** The [Response] of [fetch]: [ok] and the content of [body] ([None] for a
    [null] body). *)
Record FetchResponse : Type := {
  ok : bool;
  body : option (list byte);
}.

(** The [File] built by [fileFromPath]. *)
Record File : Type := {
  file_bits : list byte;
  file_name : string;
  file_type : string;
  file_lastModified : Z;
}.

(** The argument of [imageApi.create]. *)
Record ImageCreate : Type := {
  img_type : string;
  img_encoding : string;
  img_encapsulated : bool;
  img_name : string;
  img_project : string;
  img_file : File;
}.

(** ** Collaborators *)

Inductive Event : Type :=
  | EvPost (b : PostBody)
  | EvGet (query_name : option string)
  | EvReadEnv
  | EvFetch (url : string)
  | EvRegister (a : ImageCreate).

(** A promise of a collaborator settles one way or the other. *)
Inductive Reply (A : Type) : Type :=
  | Fulfilled (a : A)
  | Rejected (e : Exn).
Arguments Fulfilled {A} a.
Arguments Rejected {A} e.

(** Every answer may depend on all that was sent before. *)
Record World : Type := {
  api_POST : list Event -> PostBody -> Reply ApiResponse;
  api_GET : list Event -> option string -> Reply ApiResponse;
  env_FETCH_FIRMWARE_ASSETS : list Event -> option string;
  net_fetch : list Event -> string -> Reply FetchResponse;
  os_tmpdir : string;
  crypto_randomUUID : list Event -> string;
  stream_pipeTo : list Event -> string -> list byte -> Reply unit;
  Date_now : list Event -> Z;
  imageApi_create : list Event -> ImageCreate -> Reply unit;
}.

Record State : Type := {
  trace : list Event;
  files : gmap string (list byte);
}.

Definition log (e : Event) (st : State) : State :=
  {| trace := trace st ++ [e]; files := files st |}.

Definition store (p : string) (content : list byte) (st : State) : State :=
  {| trace := trace st; files := <[p := content]> (files st) |}.

(** ** The monad of the endpoints *)

Inductive Outcome (A : Type) : Type :=
  | Returned (a : A)
  | Thrown (e : Exn)
  | Pending.
Arguments Returned {A} a.
Arguments Thrown {A} e.
Arguments Pending {A}.

Definition M (A : Type) : Type := State -> Outcome A * State.

Definition ret {A} (a : A) : M A := fun st => (Returned a, st).

Definition throw {A} (e : Exn) : M A := fun st => (Thrown e, st).

Definition bind {A B} (m : M A) (f : A -> M B) : M B :=
  fun st =>
    match m st with
    | (Returned a, st') => f a st'
    | (Thrown e, st') => (Thrown e, st')
    | (Pending, st') => (Pending, st')
    end.

Declare Scope async_scope.
Delimit Scope async_scope with async.
Notation "x <- 'await' m ;; k" := (bind m (fun x => k))
  (at level 100, m at next level, right associativity) : async_scope.
Notation "'await' m ;; k" := (bind m (fun _ => k))
  (at level 100, m at next level, right associativity) : async_scope.

Definition settle {A} (r : Reply A) (st : State) : Outcome A * State :=
  match r with
  | Fulfilled a => (Returned a, st)
  | Rejected e => (Thrown e, st)
  end.

Section Collaborators.
Variable w : World.

Definition POST (b : PostBody) : M ApiResponse :=
  fun st => settle (api_POST w (trace st) b) (log (EvPost b) st).

Definition GET (q : option string) : M ApiResponse :=
  fun st => settle (api_GET w (trace st) q) (log (EvGet q) st).

Definition process_env_FETCH_FIRMWARE_ASSETS : M (option string) :=
  fun st => (Returned (env_FETCH_FIRMWARE_ASSETS w (trace st)), log EvReadEnv st).

Definition fetch (url : string) : M FetchResponse :=
  fun st => settle (net_fetch w (trace st) url) (log (EvFetch url) st).

Definition randomUUID : M string :=
  fun st => (Returned (crypto_randomUUID w (trace st)), st).

(** [fs.createWriteStream(path)] with the default flags: the file is
    created, or emptied when it exists. *)
Definition createWriteStream (path : string) : M unit :=
  fun st => (Returned tt, store path [] st).

(** [body.pipeTo(Writable.toWeb(stream))]: when the promise is fulfilled
    the whole content is in the file. *)
Definition pipeTo (content : list byte) (path : string) : M unit :=
  fun st =>
    match stream_pipeTo w (trace st) path content with
    | Fulfilled _ => (Returned tt, store path content st)
    | Rejected e => (Thrown e, st)
    end.

Definition readFile (path : string) : M (list byte) :=
  fun st =>
    match files st !! path with
    | Some content => (Returned content, st)
    | None => (Thrown (ExnRejected "ENOENT"), st)
    end.

Definition now : M Z :=
  fun st => (Returned (Date_now w (trace st)), st).

Definition imageApi_create_call (a : ImageCreate) : M unit :=
  fun st => settle (imageApi_create w (trace st) a) (log (EvRegister a) st).
End Collaborators.

(** ** src/devices.ts *)

(** [s.split('/').pop()]: what follows the last slash of [s]. *)
Fixpoint split_pop (acc s : string) : string :=
  match s with
  | EmptyString => acc
  | String c s' =>
      if Ascii.eqb c "/"%char then split_pop "" s'
      else split_pop (acc +:+ String c "") s'
  end.

(** [s || d] on strings: the empty string is falsy. *)
Definition or_else (s d : string) : string :=
  if String.eqb s "" then d else s.

(** [path.join(dir, file)] for a directory without a trailing slash and a
    plain file name, which is what [os.tmpdir()] and a UUID are. *)
Definition path_join (dir file : string) : string :=
  dir +:+ "/" +:+ file.

(** [v === s] for a property of [process.env], [None] being [undefined]. *)
Definition strict_equals (v : option string) (s : string) : bool :=
  match v with
  | Some x => String.eqb x s
  | None => false
  end.

(** The two error objects the payload of a failed creation is turned into
    (lines 74, 76 and 105): [new MissingFirmwareAssetError(response.error)]
    when [missingFwAssets] is truthy, [new CorelliumSDKError(response.error)]
    otherwise. *)
Inductive ServiceError : Type :=
  | GenericError (e : CorelliumSDKError)
  | MissingAssetError (e : MissingFirmwareAssetError).

Definition classify (error : ErrorPayload) : ServiceError :=
  match error with
  | MissingAssetsPayload raw => MissingAssetError (MissingFirmwareAssetError_new raw)
  | PlainPayload raw => GenericError (CorelliumSDKError_new raw)
  end.

Definition is_missing_asset_error (e : ServiceError) : bool :=
  match e with
  | MissingAssetError _ => true
  | GenericError _ => false
  end.

(** The message of the [Error] thrown at line 102. *)
Definition remediation_disabled_message : string :=
  "This instance requires additional firmware assets. To automatically download firmware assets and associate them with your domain, set the environment variable FETCH_FIRMWARE_ASSETS=1".

Definition RemediationDisabledError : Exn :=
  ExnError remediation_disabled_message.

Definition resolve_patches (p : option Patches) : Patches :=
  match p with
  | Some p => p
  | None => jailbroken
  end.

(** The body [create] posts for its argument. *)
Definition request_of (args : CreateArgs) : PostBody :=
  {| post_body := arg_body args;
     post_patches := [resolve_patches (arg_patches args)] |}.

(** The argument of the recursive call: [{ patches, ...body }]. *)
Definition retry_args (args : CreateArgs) : CreateArgs :=
  {| arg_patches := Some (resolve_patches (arg_patches args));
     arg_body := arg_body args |}.

(** The object given to [imageApi.create] (lines 86-93). *)
Definition registration (knownErr : MissingFirmwareAssetError)
    (firmwareAssetUrl : string) (file : File) : ImageCreate :=
  {| img_type := "fwasset";
     img_encoding := "plain";
     img_encapsulated := false;
     img_name := firmwareAssetUrl;
     img_project := mfa_projectId knownErr;
     img_file := file |}.

Module Devices.
Section Endpoints.
Variable w : World.
Local Open Scope async_scope.

Definition fileFromPath (path : string) : M File :=
  buffer <- await readFile path;;
  let filename := or_else (split_pop "" path) "file" in
  lastModified <- await now w;;
  ret {| file_bits := buffer;
         file_name := filename;
         file_type := "application/octet-stream";
         file_lastModified := lastModified |}.

(** The body of the [for ... of] loop (lines 78-94). *)
Definition loop_body (knownErr : MissingFirmwareAssetError)
    (firmwareAssetUrl : string) : M unit :=
  response <- await fetch w firmwareAssetUrl;;
  uuid <- await randomUUID w;;
  let fwAssetPath := path_join (os_tmpdir w) (uuid +:+ ".fwasset") in
  match ok response, body response with
  | true, Some content =>
      await createWriteStream fwAssetPath;;
      await pipeTo w content fwAssetPath;;
      file <- await fileFromPath fwAssetPath;;
      imageApi_create_call w (registration knownErr firmwareAssetUrl file)
  | _, _ => ret tt
  end.

(** [for (const firmwareAssetUrl of urls) { ... }] *)
Fixpoint for_of (knownErr : MissingFirmwareAssetError)
    (urls : list string) : M unit :=
  match urls with
  | [] => ret tt
  | firmwareAssetUrl :: rest =>
      await loop_body knownErr firmwareAssetUrl;;
      for_of knownErr rest
  end.

(** [create], with at most [attempts] creation requests. *)
Fixpoint create (attempts : nat) (args : CreateArgs) : M (option string) :=
  match attempts with
  | O => fun st => (Pending, st)
  | S attempts' =>
      response <- await POST w (request_of args);;
      match resp_error response with
      | Some error =>
          match classify error with
          | MissingAssetError knownErr =>
              flag <- await process_env_FETCH_FIRMWARE_ASSETS w;;
              if strict_equals flag "1" then
                await for_of knownErr (mfa_missingFwAssets knownErr);;
                create attempts' (retry_args args)
              else throw RemediationDisabledError
          | GenericError e => throw (ExnCorelliumSDKError e)
          end
      | None => ret (resp_data response)
      end
  end.

Definition search (name : string) : M (option string) :=
  response <- await GET w (Some name);;
  match resp_error response with
  | Some error => throw (ExnError (payload_error error))
  | None => ret (resp_data response)
  end.

Definition list : M (option string) :=
  response <- await GET w None;;
  match resp_error response with
  | Some error => throw (ExnError (payload_error error))
  | None => ret (resp_data response)
  end.
End Endpoints.
End Devices.

(** ** Observations on traces

    The scratch path and the [File] of an asset whose fetch was logged last
    in the history [h]. *)

Definition scratch_path (w : World) (h : list Event) : string :=
  path_join (os_tmpdir w) (crypto_randomUUID w h +:+ ".fwasset").

Definition uploaded_file (w : World) (h : list Event) (content : list byte) : File :=
  {| file_bits := content;
     file_name := or_else (split_pop "" (scratch_path w h)) "file";
     file_type := "application/octet-stream";
     file_lastModified := Date_now w h |}.

Definition no_post (evs : list Event) : bool :=
  forallb (fun e => match e with EvPost _ => false | _ => true end) evs.

Fixpoint count_posts (evs : list Event) : nat :=
  match evs with
  | [] => 0
  | EvPost _ :: evs' => S (count_posts evs')
  | _ :: evs' => count_posts evs'
  end.

Definition settled {A} (o : Outcome A) : bool :=
  match o with
  | Pending => false
  | _ => true
  end.

Definition fulfilled {A} (r : Reply A) : bool :=
  match r with
  | Fulfilled _ => true
  | Rejected _ => false
  end.

Definition reports_missing (r : Reply ApiResponse) : bool :=
  match r with
  | Fulfilled resp =>
      match resp_error resp with
      | Some (MissingAssetsPayload _) => true
      | _ => false
      end
  | Rejected _ => false
  end.

Fixpoint fetched_urls (evs : list Event) : list string :=
  match evs with
  | [] => []
  | EvFetch u :: evs' => u :: fetched_urls evs'
  | _ :: evs' => fetched_urls evs'
  end.

(** [each_event P h evs]: every event of [evs], sent after the history [h]
    and the events before it, satisfies [P] at its own history. *)
Fixpoint each_event (P : list Event -> Event -> Prop) (h evs : list Event) : Prop :=
  match evs with
  | [] => True
  | e :: evs' => P h e /\ each_event P (h ++ [e]) evs'
  end.

(** What the loop sends: fetches of listed URLs, and registrations that
    directly follow the fetch of the URL they name, when that fetch
    answered [ok] with a body, which is the content submitted. *)
Definition loop_event (w : World) (knownErr : MissingFirmwareAssetError)
    (urls : list string) (h : list Event) (e : Event) : Prop :=
  match e with
  | EvFetch u => In u urls
  | EvRegister a =>
      In (img_name a) urls /\
      exists h0 r content,
        h = h0 ++ [EvFetch (img_name a)] /\
        net_fetch w h0 (img_name a) = Fulfilled r /\
        ok r = true /\ body r = Some content /\
        a = registration knownErr (img_name a) (uploaded_file w h content)
  | _ => False
  end.

(** [Processed w knownErr h urls evs]: after the history [h], [evs] is one
    turn per entry of [urls], in order; a turn is the fetch of the entry,
    followed by its registration exactly when the fetch answered [ok] with
    a body. *)
Inductive Processed (w : World) (knownErr : MissingFirmwareAssetError)
    : list Event -> list string -> list Event -> Prop :=
  | Processed_nil h : Processed w knownErr h [] []
  | Processed_skipped h u urls evs r :
      net_fetch w h u = Fulfilled r ->
      ok r = false \/ body r = None ->
      Processed w knownErr (h ++ [EvFetch u]) urls evs ->
      Processed w knownErr h (u :: urls) (EvFetch u :: evs)
  | Processed_registered h u urls evs r content a :
      net_fetch w h u = Fulfilled r ->
      ok r = true -> body r = Some content ->
      a = registration knownErr u (uploaded_file w (h ++ [EvFetch u]) content) ->
      Processed w knownErr (h ++ [EvFetch u; EvRegister a]) urls evs ->
      Processed w knownErr h (u :: urls) (EvFetch u :: EvRegister a :: evs).

(** [Attempts w b h evs]: after the history [h], [evs] is a sequence of
    creation requests [b]; each one but the last was answered with a
    missing-asset payload while the flag read ["1"], and is followed by a
    complete pass over the list of that payload. *)
Inductive Attempts (w : World) (b : PostBody) : list Event -> list Event -> Prop :=
  | Attempts_none h : Attempts w b h []
  | Attempts_last h evs :
      no_post evs = true -> Attempts w b h (EvPost b :: evs)
  | Attempts_retry h resp raw evs rest :
      api_POST w h b = Fulfilled resp ->
      resp_error resp = Some (MissingAssetsPayload raw) ->
      strict_equals (env_FETCH_FIRMWARE_ASSETS w (h ++ [EvPost b])) "1" = true ->
      Processed w (MissingFirmwareAssetError_new raw)
        (h ++ [EvPost b; EvReadEnv]) (raw_missingFwAssets raw) evs ->
      no_post evs = true ->
      Attempts w b (h ++ EvPost b :: EvReadEnv :: evs) rest ->
      Attempts w b h (EvPost b :: EvReadEnv :: evs ++ rest).

(** What holds of a registration sent after the history [h]. *)
Definition registration_event (w : World) (h : list Event) (e : Event) : Prop :=
  match e with
  | EvRegister a =>
      img_type a = "fwasset" /\ img_encoding a = "plain" /\
      img_encapsulated a = false /\
      (exists h0 r content,
          h = h0 ++ [EvFetch (img_name a)] /\
          net_fetch w h0 (img_name a) = Fulfilled r /\
          ok r = true /\ body r = Some content /\
          file_bits (img_file a) = content) /\
      (exists hp b mid resp raw,
          h = hp ++ EvPost b :: mid /\ no_post mid = true /\
          api_POST w hp b = Fulfilled resp /\
          resp_error resp = Some (MissingAssetsPayload raw) /\
          classify (MissingAssetsPayload raw) =
            MissingAssetError (MissingFirmwareAssetError_new raw) /\
          img_project a = mfa_projectId (MissingFirmwareAssetError_new raw) /\
          In (img_name a) (raw_missingFwAssets raw))
  | _ => True
  end.

(** ** Sample collaborators *)

Definition fw1 : string := "https://x/fw1".
Definition fw2 : string := "https://x/fw2".

Definition sample_body : Body :=
  {| project := "p1"; name := "d1"; flavor := "ranchu"; os := "14.0.0"; others := [] |}.

Definition sample_args : CreateArgs :=
  {| arg_patches := None; arg_body := sample_body |}.

Definition start : State := {| trace := []; files := ∅ |}.

Definition sample_raw (urls : list string) : RawMissingFirmwareAssetError :=
  {| raw_base := {| raw_error := "Missing firmware assets";
                    raw_errorID := "MissingFirmwareAssets";
                    raw_field := field_undefined |};
     raw_missingFwAssets := urls;
     raw_projectId := "p1" |}.

Definition missing_payload (urls : list string) : ErrorPayload :=
  MissingAssetsPayload (sample_raw urls).

Definition failure (p : ErrorPayload) : Reply ApiResponse :=
  Fulfilled {| resp_data := None; resp_error := Some p |}.

Definition success (d : string) : Reply ApiResponse :=
  Fulfilled {| resp_data := Some d; resp_error := None |}.

Fixpoint registered_names (h : list Event) : list string :=
  match h with
  | [] => []
  | EvRegister a :: h' => img_name a :: registered_names h'
  | _ :: h' => registered_names h'
  end.

(** A service that needs the assets [needed] and reports those not yet
    registered. *)
Definition inventory_POST (needed : list string) (h : list Event) (_ : PostBody)
    : Reply ApiResponse :=
  match List.filter (fun u => negb (existsb (String.eqb u) (registered_names h))) needed with
  | [] => success "d1-instance"
  | missing => failure (missing_payload missing)
  end.

(** A service that reports the same list whatever is registered. *)
Definition stuck_POST (urls : list string) (_ : list Event) (_ : PostBody)
    : Reply ApiResponse :=
  failure (missing_payload urls).

Definition sample_world
    (post : list Event -> PostBody -> Reply ApiResponse)
    (flag : list Event -> option string)
    (reachable accepted : string -> bool) : World :=
  {| api_POST := post;
     api_GET := fun _ _ => failure (missing_payload [fw1]);
     env_FETCH_FIRMWARE_ASSETS := flag;
     net_fetch := fun _ u =>
       Fulfilled (if reachable u then {| ok := true; body := Some [x66; x77] |}
                  else {| ok := false; body := Some [] |});
     os_tmpdir := "/tmp";
     crypto_randomUUID := fun h =>
       String (ascii_of_nat (48 + List.length h mod 10)) "-uuid";
     stream_pipeTo := fun _ _ _ => Fulfilled tt;
     Date_now := fun h => Z.of_nat (List.length h);
     imageApi_create := fun _ a =>
       if accepted (img_name a) then Fulfilled tt
       else Rejected (ExnRejected "upload refused") |}.

Definition always {A} (v : A) : string -> A := fun _ => v.
Definition enabled : list Event -> option string := fun _ => Some "1".
Definition unset : list Event -> option string := fun _ => None.

(** Set to ["1"] until something is registered, then to ["true"]. *)
Definition switched_off_later (h : list Event) : option string :=
  match registered_names h with
  | [] => Some "1"
  | _ => Some "true"
  end.

Definition cooperative : World :=
  sample_world (inventory_POST [fw1; fw2]) enabled (always true) (always true).
Definition gated : World :=
  sample_world (inventory_POST [fw1; fw2]) unset (always true) (always true).
Definition half_reachable : World :=
  sample_world (inventory_POST [fw1; fw2]) enabled (String.eqb fw2) (always true).
Definition refusing_second : World :=
  sample_world (inventory_POST [fw1; fw2]) enabled (always true) (String.eqb fw1).
Definition flipping : World :=
  sample_world (inventory_POST [fw1; fw2]) switched_off_later (String.eqb fw1) (always true).
Definition empty_list_gated : World :=
  sample_world (stuck_POST []) unset (always true) (always true).

Definition plain_payload : ErrorPayload :=
  PlainPayload {| raw_error := "Invalid flavor";
                  raw_errorID := "ValidationError";
                  raw_field := field_string "flavor" |}.
Definition rejecting : World :=
  sample_world (fun _ _ => failure plain_payload) enabled (always true) (always true).

Definition stubborn : World :=
  sample_world (stuck_POST [fw1]) enabled (always false) (always true).

(** ** Further observations *)

(** Whether a string holds a slash. *)
Fixpoint has_slash (s : string) : bool :=
  match s with
  | EmptyString => false
  | String c s' => Ascii.eqb c "/"%char || has_slash s'
  end.


(** [scratch_kept base st]: the history of [st] extends [base], and the
    scratch file of every registration sent since [base] exists in
    [st]. *)
Definition scratch_kept (w : World) (base : list Event) (st : State) : Prop :=
  exists evs, trace st = base ++ evs /\
    forall before a after,
      evs = before ++ EvRegister a :: after ->
      is_Some (files st !! scratch_path w (base ++ before)).

(** What holds of a fetch sent after the history [h]: its URL is listed in
    the payload that answered the latest creation request, and the flag
    read ["1"] after that answer. *)
Definition fetch_event (w : World) (h : list Event) (e : Event) : Prop :=
  match e with
  | EvFetch u =>
      exists hp b mid resp raw,
        h = hp ++ EvPost b :: mid /\ no_post mid = true /\
        api_POST w hp b = Fulfilled resp /\
        resp_error resp = Some (MissingAssetsPayload raw) /\
        strict_equals (env_FETCH_FIRMWARE_ASSETS w (hp ++ [EvPost b])) "1" = true /\
        In u (raw_missingFwAssets raw)
  | EvGet _ => False
  | _ => True
  end.

(** What holds of anything sent after the history [h] in a run of [create]
    whose request is [b]: a creation request is [b]; the flag is read
    directly after a creation request that was answered with a
    missing-asset payload; a fetch is as [fetch_event] says; the file of a
    registration is the scratch file read back at that moment; and nothing
    is listed or searched. *)
Definition run_event (w : World) (b : PostBody) (h : list Event) (e : Event) : Prop :=
  fetch_event w h e /\
  match e with
  | EvPost b' => b' = b
  | EvReadEnv =>
      exists hp resp raw,
        h = hp ++ [EvPost b] /\
        api_POST w hp b = Fulfilled resp /\
        resp_error resp = Some (MissingAssetsPayload raw)
  | EvRegister a => img_file a = uploaded_file w h (file_bits (img_file a))
  | _ => True
  end.


(** More sample collaborators: a service that creates at once, one that
    cannot be reached, a network on which [fetch] is rejected, and a disk
    on which the transfer is rejected. *)
Definition ready : World :=
  sample_world (inventory_POST []) enabled (always true) (always true).

Definition offline : World :=
  sample_world (fun _ _ => Rejected (ExnRejected "fetch failed"))
    enabled (always true) (always true).

Definition with_fetch (w : World)
    (f : list Event -> string -> Reply FetchResponse) : World :=
  {| api_POST := api_POST w;
     api_GET := api_GET w;
     env_FETCH_FIRMWARE_ASSETS := env_FETCH_FIRMWARE_ASSETS w;
     net_fetch := f;
     os_tmpdir := os_tmpdir w;
     crypto_randomUUID := crypto_randomUUID w;
     stream_pipeTo := stream_pipeTo w;
     Date_now := Date_now w;
     imageApi_create := imageApi_create w |}.

Definition with_pipeTo (w : World)
    (f : list Event -> string -> list byte -> Reply unit) : World :=
  {| api_POST := api_POST w;
     api_GET := api_GET w;
     env_FETCH_FIRMWARE_ASSETS := env_FETCH_FIRMWARE_ASSETS w;
     net_fetch := net_fetch w;
     os_tmpdir := os_tmpdir w;
     crypto_randomUUID := crypto_randomUUID w;
     stream_pipeTo := f;
     Date_now := Date_now w;
     imageApi_create := imageApi_create w |}.

Definition with_GET (w : World)
    (f : list Event -> option string -> Reply ApiResponse) : World :=
  {| api_POST := api_POST w;
     api_GET := f;
     env_FETCH_FIRMWARE_ASSETS := env_FETCH_FIRMWARE_ASSETS w;
     net_fetch := net_fetch w;
     os_tmpdir := os_tmpdir w;
     crypto_randomUUID := crypto_randomUUID w;
     stream_pipeTo := stream_pipeTo w;
     Date_now := Date_now w;
     imageApi_create := imageApi_create w |}.

Definition no_network : World :=
  with_fetch cooperative (fun _ _ => Rejected (ExnRejected "fetch failed")).

Definition disk_full : World :=
  with_pipeTo cooperative (fun _ _ _ => Rejected (ExnRejected "ENOSPC")).

Definition listing : World :=
  with_GET cooperative (fun _ q =>
    match q with
    | None => success "all-devices"
    | Some name => success name
    end).

Definition empty_list_enabled : World :=
  sample_world (stuck_POST []) enabled (always true) (always true).

(** * Lemmas *)

(** ** Events *)

Lemma each_event_app P h evs1 evs2 :
  each_event P h (evs1 ++ evs2) <->
  each_event P h evs1 /\ each_event P (h ++ evs1) evs2.
Proof.
  revert h. induction evs1 as [|e evs1 IH]; intros h; simpl.
  - rewrite app_nil_r. tauto.
  - rewrite IH, <- app_assoc. simpl. tauto.
Qed.

Lemma each_event_at P h before e after :
  each_event P h (before ++ e :: after) -> P (h ++ before) e.
Proof. rewrite each_event_app. simpl. tauto. Qed.

Lemma each_event_impl (P Q : list Event -> Event -> Prop) h evs :
  (forall h' e, P h' e -> Q h' e) -> each_event P h evs -> each_event Q h evs.
Proof.
  intros HPQ. revert h. induction evs as [|e evs IH]; intros h; simpl; [done|].
  intros [? ?]. split; auto.
Qed.

Lemma no_post_app evs1 evs2 :
  no_post (evs1 ++ evs2) = no_post evs1 && no_post evs2.
Proof. apply forallb_app. Qed.

Lemma count_posts_app evs1 evs2 :
  count_posts (evs1 ++ evs2) = count_posts evs1 + count_posts evs2.
Proof.
  induction evs1 as [|[] evs1 IH]; simpl; auto.
Qed.

Lemma no_post_count evs : no_post evs = true -> count_posts evs = 0.
Proof.
  induction evs as [|[] evs IH]; simpl; auto; discriminate.
Qed.

(** Where the first creation request of [evs ++ tl] sits, when [evs] holds
    none. *)
Lemma first_post_split (evs tl pre post : list Event) b :
  no_post evs = true ->
  evs ++ tl = pre ++ EvPost b :: post ->
  exists pre', pre = evs ++ pre' /\ tl = pre' ++ EvPost b :: post.
Proof.
  revert pre. induction evs as [|e evs IH]; intros pre Hno Heq; simpl in *.
  - by exists pre.
  - apply andb_prop in Hno as [He Hno].
    destruct pre as [|e' pre]; simpl in Heq; inversion Heq; subst.
    + discriminate.
    + destruct (IH pre Hno) as (pre' & -> & ->); [done|]. by exists pre'.
Qed.

Lemma each_event_impl_at (P Q : list Event -> Event -> Prop) h evs :
  (forall before e after,
      evs = before ++ e :: after -> P (h ++ before) e -> Q (h ++ before) e) ->
  each_event P h evs -> each_event Q h evs.
Proof.
  revert h. induction evs as [|e evs IH]; intros h HPQ; simpl; [done|].
  intros [He Hevs]. split.
  - specialize (HPQ [] e evs eq_refl). rewrite app_nil_r in HPQ. auto.
  - apply IH; [|done]. intros before e' after -> HP.
    specialize (HPQ (e :: before) e' after eq_refl).
    rewrite <- app_assoc. simpl. apply HPQ. rewrite <- app_assoc in HP. exact HP.
Qed.

Lemma app_self_nil {A} (l k : list A) : l = l ++ k -> k = [].
Proof.
  intros H. apply (app_inv_head l). by rewrite app_nil_r.
Qed.

Lemma strict_equals_1 v : strict_equals v "1" = true <-> v = Some "1".
Proof.
  destruct v as [s|]; simpl; [|done].
  rewrite String.eqb_eq. split; [by intros ->|by intros [= ->]].
Qed.

(** ** The loop *)

Section Pass.
Variable w : World.
Variable knownErr : MissingFirmwareAssetError.

Lemma store_store p c c' st : store p c (store p c' st) = store p c st.
Proof. unfold store; simpl. by rewrite insert_insert_eq. Qed.

Lemma loop_body_unfold u st :
  Devices.loop_body w knownErr u st =
    let st1 := log (EvFetch u) st in
    match net_fetch w (trace st) u with
    | Rejected e => (Thrown e, st1)
    | Fulfilled r =>
        match ok r, body r with
        | true, Some content =>
            let p := scratch_path w (trace st1) in
            match stream_pipeTo w (trace st1) p content with
            | Rejected e => (Thrown e, store p [] st1)
            | Fulfilled _ =>
                let a := registration knownErr u (uploaded_file w (trace st1) content) in
                settle (imageApi_create w (trace st1) a)
                       (log (EvRegister a) (store p content st1))
            end
        | _, _ => (Returned tt, st1)
        end
    end.
Proof.
  unfold Devices.loop_body, bind, fetch, randomUUID, settle at 1.
  destruct (net_fetch w (trace st) u) as [r|e]; [|done].
  cbn zeta. destruct (ok r); [|done]. destruct (body r) as [content|]; [|done].
  unfold createWriteStream, pipeTo, Devices.fileFromPath, bind, readFile, now,
    imageApi_create_call, ret.
  fold (scratch_path w (trace (log (EvFetch u) st))).
  set (p := scratch_path w _).
  change (trace (store p [] (log (EvFetch u) st))) with (trace (log (EvFetch u) st)).
  destruct (stream_pipeTo w _ p content) as [[]|e]; [|done].
  rewrite store_store. simpl files. rewrite lookup_insert_eq. reflexivity.
Qed.

Lemma loop_event_weaken urls urls' h e :
  (forall u, In u urls -> In u urls') ->
  loop_event w knownErr urls h e -> loop_event w knownErr urls' h e.
Proof. destruct e; simpl; intuition. Qed.

Lemma loop_body_events u st r st' :
  Devices.loop_body w knownErr u st = (r, st') ->
  exists evs, trace st' = trace st ++ evs /\
    each_event (loop_event w knownErr [u]) (trace st) evs /\
    evs <> [] /\ settled r = true /\
    (r = Returned tt -> Processed w knownErr (trace st) [u] evs).
Proof.
  rewrite loop_body_unfold. cbn zeta.
  destruct (net_fetch w (trace st) u) as [resp|e] eqn:Hf.
  2:{ intros [= <- <-]. exists [EvFetch u]. simpl. intuition; discriminate. }
  destruct (ok resp) eqn:Hok.
  2:{ intros [= <- <-]. exists [EvFetch u]. simpl. intuition; try discriminate.
      eapply Processed_skipped; eauto using Processed_nil. }
  destruct (body resp) as [content|] eqn:Hbody.
  2:{ intros [= <- <-]. exists [EvFetch u]. simpl. intuition; try discriminate.
      eapply Processed_skipped; eauto using Processed_nil. }
  destruct (stream_pipeTo w _ _ content) as [[]|e].
  2:{ intros [= <- <-]. exists [EvFetch u]. simpl. intuition; discriminate. }
  set (a := registration _ _ _).
  intros Hrun. exists [EvFetch u; EvRegister a].
  assert (Htr : trace st' = trace st ++ [EvFetch u; EvRegister a]).
  { destruct (imageApi_create w _ a); simpl in Hrun; inversion Hrun; subst;
      simpl; by rewrite <- app_assoc. }
  split; [done|]. split; [|split; [done|split]].
  - simpl. split; [by left|]. split; [|done]. split; [by left|].
    exists (trace st), resp, content. by repeat split.
  - destruct (imageApi_create w _ a); simpl in Hrun; by inversion Hrun.
  - intros _. eapply Processed_registered; eauto using Processed_nil.
Qed.

Lemma Processed_cons h u urls evs1 evs2 :
  Processed w knownErr h [u] evs1 -> Processed w knownErr (h ++ evs1) urls evs2 ->
  Processed w knownErr h (u :: urls) (evs1 ++ evs2).
Proof.
  intros H1 H2. inversion H1; subst.
  - match goal with H : Processed _ _ _ [] _ |- _ => inversion H; subst end.
    simpl. eapply Processed_skipped; eauto.
  - match goal with H : Processed _ _ _ [] _ |- _ => inversion H; subst end.
    simpl. eapply Processed_registered; eauto.
Qed.

Lemma for_of_events urls st r st' :
  Devices.for_of w knownErr urls st = (r, st') ->
  exists evs, trace st' = trace st ++ evs /\
    each_event (loop_event w knownErr urls) (trace st) evs /\
    settled r = true /\
    (urls <> [] -> evs <> []) /\
    (r = Returned tt -> Processed w knownErr (trace st) urls evs).
Proof.
  revert st. induction urls as [|u urls IH]; intros st; simpl.
  - intros [= <- <-]. exists []. rewrite app_nil_r.
    repeat split; auto using Processed_nil.
  - unfold bind. destruct (Devices.loop_body w knownErr u st) as [r1 st1] eqn:H1.
    apply loop_body_events in H1 as (evs1 & Htr1 & Hev1 & Hne1 & Hset1 & Hp1).
    assert (Hev1' : each_event (loop_event w knownErr (u :: urls)) (trace st) evs1).
    { eapply each_event_impl; [|exact Hev1]. intros h e.
      apply loop_event_weaken. intros ? [<-|[]]. by left. }
    destruct r1 as [[]|e|]; [|intros [= <- <-]..].
    + intros Hrest. apply IH in Hrest as (evs2 & Htr2 & Hev2 & Hset2 & _ & Hp2).
      exists (evs1 ++ evs2). rewrite Htr2, Htr1, <- app_assoc.
      split; [done|]. split; [|split; [done|split]].
      * apply each_event_app. split; [done|]. rewrite <- Htr1.
        eapply each_event_impl; [|exact Hev2]. intros h e.
        apply loop_event_weaken. intros ? ?. by right.
      * intros _ Hnil. apply app_eq_nil in Hnil as [? _]. done.
      * intros Hr. apply Processed_cons; [by apply Hp1|].
        rewrite <- Htr1. by apply Hp2.
    + exists evs1. repeat split; auto. discriminate.
    + discriminate.
Qed.
End Pass.

Lemma loop_body_registers w knownErr u st r content :
  let h := trace st ++ [EvFetch u] in
  let a := registration knownErr u (uploaded_file w h content) in
  net_fetch w (trace st) u = Fulfilled r ->
  ok r = true -> body r = Some content ->
  stream_pipeTo w h (scratch_path w h) content = Fulfilled tt ->
  Devices.loop_body w knownErr u st =
    settle (imageApi_create w h a)
      {| trace := trace st ++ [EvFetch u; EvRegister a];
         files := <[scratch_path w h := content]> (files st) |}.
Proof.
  intros h a Hf Hok Hbody Hpipe. rewrite loop_body_unfold. cbn zeta.
  rewrite Hf, Hok, Hbody. cbn [log trace]. fold h. rewrite Hpipe. fold a.
  f_equal. unfold log, store; simpl. by rewrite <- app_assoc.
Qed.

Lemma for_of_app w knownErr urls1 urls2 st :
  Devices.for_of w knownErr (urls1 ++ urls2) st =
    bind (Devices.for_of w knownErr urls1)
         (fun _ => Devices.for_of w knownErr urls2) st.
Proof.
  revert st. induction urls1 as [|u urls1 IH]; intros st; [done|].
  cbn [app Devices.for_of]. unfold bind.
  destruct (Devices.loop_body w knownErr u st) as [[[]|e|] st1]; [|done..].
  rewrite IH. reflexivity.
Qed.

(** ** One attempt of [create] *)

Section Attempt.
Variable w : World.

Lemma request_of_retry args : request_of (retry_args args) = request_of args.
Proof. reflexivity. Qed.

Lemma create_unfold n args st :
  Devices.create w (S n) args st =
    let b := request_of args in
    let st0 := log (EvPost b) st in
    match api_POST w (trace st) b with
    | Rejected e => (Thrown e, st0)
    | Fulfilled resp =>
        match resp_error resp with
        | None => (Returned (resp_data resp), st0)
        | Some (PlainPayload raw) =>
            (Thrown (ExnCorelliumSDKError (CorelliumSDKError_new raw)), st0)
        | Some (MissingAssetsPayload raw) =>
            let st1 := log EvReadEnv st0 in
            if strict_equals (env_FETCH_FIRMWARE_ASSETS w (trace st0)) "1" then
              match Devices.for_of w (MissingFirmwareAssetError_new raw)
                      (raw_missingFwAssets raw) st1 with
              | (Returned _, st2) => Devices.create w n (retry_args args) st2
              | (Thrown e, st2) => (Thrown e, st2)
              | (Pending, st2) => (Pending, st2)
              end
            else (Thrown RemediationDisabledError, st1)
        end
    end.
Proof.
  cbn [Devices.create]. unfold bind at 1. unfold POST, settle.
  destruct (api_POST w (trace st) (request_of args)) as [resp|e]; [|done].
  cbn zeta. destruct (resp_error resp) as [[raw|raw]|]; try done.
  cbn [classify]. unfold bind at 1. unfold process_env_FETCH_FIRMWARE_ASSETS.
  destruct (strict_equals _ "1"); [|done].
  unfold bind. cbn [mfa_missingFwAssets MissingFirmwareAssetError_new].
  by destruct (Devices.for_of _ _ _ _) as [[[]| |] ?].
Qed.

Lemma log_log_trace e1 e2 st :
  trace (log e2 (log e1 st)) = trace st ++ [e1; e2].
Proof. simpl. by rewrite <- app_assoc. Qed.
End Attempt.

(** ** Whole runs of [create] *)

Section Run.
Variable w : World.

Lemma loop_events_no_post k urls h evs :
  each_event (loop_event w k urls) h evs -> no_post evs = true.
Proof.
  revert h. induction evs as [|e evs IH]; intros h; simpl; [done|].
  intros [He Hevs]. rewrite (IH _ Hevs). by destruct e.
Qed.

Lemma pass_registrations h b resp raw evs :
  api_POST w h b = Fulfilled resp ->
  resp_error resp = Some (MissingAssetsPayload raw) ->
  each_event (loop_event w (MissingFirmwareAssetError_new raw) (raw_missingFwAssets raw))
    (h ++ [EvPost b; EvReadEnv]) evs ->
  each_event (registration_event w) (h ++ [EvPost b; EvReadEnv]) evs.
Proof.
  intros HP Herr Hev. pose proof (loop_events_no_post _ _ _ _ Hev) as Hno.
  revert Hev. apply each_event_impl_at. intros before e after -> He.
  destruct e as [| | | |a]; simpl; try done.
  destruct He as (Hin & h0 & r & content & Hh & Hf & Hok & Hb & Ha).
  rewrite no_post_app in Hno. apply andb_prop in Hno as [Hno _].
  split; [by rewrite Ha|]. split; [by rewrite Ha|]. split; [by rewrite Ha|].
  split.
  - exists h0, r, content. repeat split; try done. by rewrite Ha.
  - exists h, b, (EvReadEnv :: before), resp, raw.
    rewrite <- app_assoc. repeat split; try done. by rewrite Ha.
Qed.

Lemma create_run n : forall args st r st',
  Devices.create w n args st = (r, st') ->
  exists evs, trace st' = trace st ++ evs /\
    Attempts w (request_of args) (trace st) evs /\
    each_event (registration_event w) (trace st) evs.
Proof.
  induction n as [|n IH]; intros args st r st'.
  { simpl. intros [= <- <-]. exists []. rewrite app_nil_r.
    repeat split. apply Attempts_none. }
  rewrite create_unfold. cbn zeta.
  set (b := request_of args).
  assert (Hlast : forall o : Outcome (option string),
    (o, log (EvPost b) st) = (r, st') ->
    exists evs, trace st' = trace st ++ evs /\
      Attempts w b (trace st) evs /\ each_event (registration_event w) (trace st) evs).
  { intros o [= <- <-]. exists [EvPost b]. simpl. repeat split.
    by apply Attempts_last. }
  destruct (api_POST w (trace st) b) as [resp|e] eqn:HP; [|by apply Hlast].
  destruct (resp_error resp) as [[raw|raw]|] eqn:Herr; try by apply Hlast.
  destruct (strict_equals _ "1") eqn:Hflag.
  2:{ intros [= <- <-]. exists [EvPost b; EvReadEnv].
      rewrite log_log_trace. repeat split. by apply Attempts_last. }
  destruct (Devices.for_of _ _ _ _) as [r1 st2] eqn:Hloop.
  apply for_of_events in Hloop as (evs & Htr & Hev & Hset & _ & Hproc).
  rewrite log_log_trace in Htr, Hev, Hproc.
  pose proof (loop_events_no_post _ _ _ _ Hev) as Hno.
  pose proof (pass_registrations _ _ _ _ _ HP Herr Hev) as Hreg.
  destruct r1 as [[]|e|]; [|intros [= <- <-]|discriminate].
  - intros Hrec. apply IH in Hrec as (rest & Htr' & Hatt & Hreg').
    rewrite request_of_retry in Hatt. fold b in Hatt.
    exists (EvPost b :: EvReadEnv :: evs ++ rest).
    rewrite Htr', Htr, <- !app_assoc. split; [done|].
    rewrite Htr, <- app_assoc in Hatt, Hreg'. simpl in Hatt, Hreg'. split.
    + eapply Attempts_retry; eauto.
    + change (EvPost b :: EvReadEnv :: evs ++ rest)
        with ([EvPost b; EvReadEnv] ++ evs ++ rest).
      apply each_event_app. split; [simpl; tauto|].
      apply each_event_app. split; [done|].
      by rewrite <- app_assoc.
  - exists (EvPost b :: EvReadEnv :: evs). rewrite Htr, <- app_assoc.
    split; [done|]. split.
    + apply Attempts_last. done.
    + change (EvPost b :: EvReadEnv :: evs) with ([EvPost b; EvReadEnv] ++ evs).
      apply each_event_app. split; [simpl; tauto|done].
Qed.
End Run.

Lemma create_first_event w n args st r st' :
  Devices.create w (S n) args st = (r, st') ->
  exists evs, trace st' = trace st ++ EvPost (request_of args) :: evs.
Proof.
  rewrite create_unfold. cbn zeta.
  assert (Hlast : forall o : Outcome (option string),
    (o, log (EvPost (request_of args)) st) = (r, st') ->
    exists evs, trace st' = trace st ++ EvPost (request_of args) :: evs).
  { intros o [= <- <-]. by exists []. }
  destruct (api_POST w _ _) as [resp|e]; [|by apply Hlast].
  destruct (resp_error resp) as [[raw|raw]|]; try by apply Hlast.
  destruct (strict_equals _ "1").
  2:{ intros [= <- <-]. exists [EvReadEnv]. by rewrite log_log_trace. }
  destruct (Devices.for_of _ _ _ _) as [r1 st2] eqn:Hloop.
  apply for_of_events in Hloop as (evs & Htr & _).
  rewrite log_log_trace in Htr.
  destruct r1 as [[]|e|]; [|intros [= <- <-]..].
  - intros Hrec. apply create_run in Hrec as (rest & Htr' & _).
    exists (EvReadEnv :: evs ++ rest). by rewrite Htr', Htr, <- !app_assoc.
  - exists (EvReadEnv :: evs). by rewrite Htr, <- app_assoc.
  - exists (EvReadEnv :: evs). by rewrite Htr, <- app_assoc.
Qed.

(** More attempts do not change a result that was reached. *)
Lemma create_settled_stable w n : forall args st o st',
  Devices.create w n args st = (o, st') -> settled o = true ->
  forall m, n <= m -> Devices.create w m args st = (o, st').
Proof.
  induction n as [|n IH]; intros args st o st' Hrun Hset m Hle.
  { simpl in Hrun. injection Hrun as <- <-. discriminate. }
  destruct m as [|m]; [lia|].
  rewrite create_unfold in Hrun |- *. cbn zeta in Hrun |- *.
  destruct (api_POST w _ _) as [resp|e]; [|done].
  destruct (resp_error resp) as [[raw|raw]|]; try done.
  destruct (strict_equals _ "1"); [|done].
  destruct (Devices.for_of _ _ _ _) as [[[]|e|] st2]; try done.
  apply (IH _ _ _ _ Hrun Hset). lia.
Qed.

Lemma for_of_completes w knownErr urls :
  (forall h u, fulfilled (net_fetch w h u) = true) ->
  (forall h p c, fulfilled (stream_pipeTo w h p c) = true) ->
  (forall h a, fulfilled (imageApi_create w h a) = true) ->
  forall st, exists st',
    Devices.for_of w knownErr urls st = (Returned tt, st') /\
    count_posts (trace st') = count_posts (trace st).
Proof.
  intros Hfetch Hpipe Hreg. induction urls as [|u urls IH]; intros st.
  { exists st. by split. }
  cbn [Devices.for_of]. unfold bind.
  destruct (Devices.loop_body w knownErr u st) as [o1 st1] eqn:H1.
  assert (o1 = Returned tt) as ->.
  { rewrite loop_body_unfold in H1. cbn zeta in H1.
    specialize (Hfetch (trace st) u).
    destruct (net_fetch w _ u) as [r|]; [|discriminate].
    destruct (ok r); [|by injection H1 as <- _].
    destruct (body r) as [content|]; [|by injection H1 as <- _].
    match type of H1 with context [stream_pipeTo w ?h ?p ?c] =>
      specialize (Hpipe h p c); destruct (stream_pipeTo w h p c) as [[]|];
      [|discriminate] end.
    match type of H1 with context [imageApi_create w ?h ?a] =>
      specialize (Hreg h a); destruct (imageApi_create w h a) as [[]|];
      [|discriminate] end.
    by injection H1 as <- _. }
  apply loop_body_events in H1 as (evs & Htr & Hev & _).
  apply loop_events_no_post, no_post_count in Hev.
  destruct (IH st1) as (st' & Hrun & Hcount).
  exists st'. split; [done|]. rewrite Hcount, Htr, count_posts_app. lia.
Qed.

Lemma Processed_fetched w knownErr h urls evs :
  Processed w knownErr h urls evs -> fetched_urls evs = urls.
Proof. induction 1; simpl; congruence. Qed.

Lemma Attempts_head w b h evs :
  Attempts w b h evs -> evs = [] \/ exists evs', evs = EvPost b :: evs'.
Proof. destruct 1; eauto. Qed.

Lemma attempts_consecutive w b h evs :
  Attempts w b h evs ->
  forall before b1 mid b2 after,
    evs = before ++ EvPost b1 :: mid ++ EvPost b2 :: after ->
    no_post mid = true ->
    b1 = b /\ b2 = b /\
    exists resp raw evs',
      api_POST w (h ++ before) b = Fulfilled resp /\
      resp_error resp = Some (MissingAssetsPayload raw) /\
      strict_equals (env_FETCH_FIRMWARE_ASSETS w (h ++ before ++ [EvPost b])) "1" = true /\
      mid = EvReadEnv :: evs' /\
      Processed w (MissingFirmwareAssetError_new raw)
        (h ++ before ++ [EvPost b; EvReadEnv]) (raw_missingFwAssets raw) evs'.
Proof.
  induction 1 as [h|h evs Hno|h resp raw evs rest HP Herr Hflag Hproc Hno Hrest IH];
    intros before b1 mid b2 after Heq Hmid.
  - by destruct before.
  - apply (f_equal count_posts) in Heq. simpl in Heq.
    rewrite (no_post_count _ Hno), count_posts_app in Heq. simpl in Heq.
    rewrite count_posts_app in Heq. simpl in Heq. lia.
  - destruct before as [|e before]; simpl in Heq; injection Heq as Hhead Heq.
    + subst b1.
      destruct (first_post_split (EvReadEnv :: evs) rest mid after b2)
        as (pre & Hmid_eq & Hrest_eq); [done|done|].
      destruct pre as [|e pre].
      * apply Attempts_head in Hrest as [->|[evs' ->]]; [done|].
        simpl in Hrest_eq. injection Hrest_eq as -> _.
        rewrite app_nil_r in Hmid_eq. subst mid.
        split; [done|]. split; [done|].
        exists resp, raw, evs. rewrite !app_nil_r. simpl. by repeat split.
      * apply Attempts_head in Hrest as [->|[evs' ->]]; [done|].
        simpl in Hrest_eq. injection Hrest_eq as <- _. subst mid.
        rewrite no_post_app in Hmid. apply andb_prop in Hmid as [_ Hmid].
        discriminate.
    + subst e.
      destruct (first_post_split (EvReadEnv :: evs) rest before
                  (mid ++ EvPost b2 :: after) b1)
        as (pre & -> & Hrest_eq); [done|done|].
      destruct (IH pre b1 mid b2 after Hrest_eq Hmid)
        as (-> & -> & resp' & raw' & evs' & HP' & Herr' & Hflag' & -> & Hproc').
      split; [done|]. split; [done|].
      exists resp', raw', evs'.
      assert (Hh : forall k, (h ++ EvPost b :: EvReadEnv :: evs) ++ pre ++ k =
                             h ++ (EvPost b :: (EvReadEnv :: evs) ++ pre) ++ k).
      { intros k. rewrite <- !app_assoc. simpl. by rewrite <- !app_assoc. }
      rewrite <- (Hh [EvPost b]), <- (Hh [EvPost b; EvReadEnv]).
      specialize (Hh []). rewrite !app_nil_r in Hh. rewrite <- Hh.
      by repeat split.
Qed.

(** * The claims *)

(** ** C1: classification *)

(** C1, as the code has it: the payload of a failed creation is turned into
    a MissingFirmwareAssetError exactly when it carries a [missingFwAssets]
    list, empty or not; the error then has the list as it is (same
    entries, same order), the project id and the message, errorID and field
    of the payload.  Any other payload becomes a CorelliumSDKError with the
    message, errorID and field of the payload, and that is what [create]
    throws. *)
Theorem classification_by_presence (p : ErrorPayload) :
  (is_missing_asset_error (classify p) = true <->
     exists urls, payload_missingFwAssets p = Some urls) /\
  is_missing_asset_error (classify p) = truthy (payload_missingFwAssets p) /\
  match classify p with
  | MissingAssetError k =>
      exists raw, p = MissingAssetsPayload raw /\
        mfa_missingFwAssets k = raw_missingFwAssets raw /\
        mfa_projectId k = raw_projectId raw /\
        sdk_message (mfa_super k) = payload_error p /\
        sdk_errorID (mfa_super k) = raw_errorID (raw_base raw) /\
        sdk_field (mfa_super k) = raw_field (raw_base raw)
  | GenericError g =>
      exists raw, p = PlainPayload raw /\
        sdk_message g = payload_error p /\
        sdk_errorID g = raw_errorID raw /\
        sdk_field g = raw_field raw /\
        forall w n args st resp,
          api_POST w (trace st) (request_of args) = Fulfilled resp ->
          resp_error resp = Some p ->
          Devices.create w (S n) args st =
            (Thrown (ExnCorelliumSDKError g), log (EvPost (request_of args)) st)
  end.
Proof.
  destruct p as [raw|raw];
    cbn [classify is_missing_asset_error payload_missingFwAssets truthy
         payload_error CorelliumSDKError_new MissingFirmwareAssetError_new
         sdk_message sdk_errorID sdk_field mfa_super mfa_missingFwAssets
         mfa_projectId].
  - split; [|split; [done|]].
    + split; [discriminate|]. by intros [? ?].
    + exists raw. repeat split. intros w n args st resp HP Herr.
      rewrite create_unfold. cbn zeta. by rewrite HP, Herr.
  - split; [|split; [done|]].
    + split; [eauto|done].
    + exists raw. by repeat split.
Qed.

Lemma classification_by_presence_witness :
  Devices.create rejecting 1 sample_args start =
    (Thrown (ExnCorelliumSDKError
               {| sdk_message := "Invalid flavor";
                  sdk_errorID := "ValidationError";
                  sdk_field := field_string "flavor" |}),
     log (EvPost (request_of sample_args)) start).
Proof.
  destruct (classification_by_presence plain_payload) as (_ & _ & Hc).
  simpl in Hc. destruct Hc as (raw & Hraw & _ & _ & _ & Hcreate).
  injection Hraw as <-.
  apply (Hcreate rejecting 0 sample_args start
           {| resp_data := None; resp_error := Some plain_payload |});
    reflexivity.
Defined.

(** C1 as stated fails on a payload whose [missingFwAssets] list is empty:
    it is classified as a missing-asset error, and [create] handles it as
    one (here the flag is unset, and the remediation-disabled error is
    thrown, not the generic one). *)
Lemma empty_list_classified_missing :
  ~ (forall p, is_missing_asset_error (classify p) = true <->
        exists urls, payload_missingFwAssets p = Some urls /\ urls <> []) /\
  payload_missingFwAssets (missing_payload []) = Some [] /\
  is_missing_asset_error (classify (missing_payload [])) = true /\
  Devices.create empty_list_gated 1 sample_args start =
    (Thrown RemediationDisabledError,
     {| trace := [EvPost (request_of sample_args); EvReadEnv]; files := ∅ |}).
Proof.
  split; [|by repeat split].
  intros H. destruct (H (missing_payload [])) as [H1 _].
  destruct (H1 eq_refl) as (urls & Hurls & Hne).
  injection Hurls as <-. by apply Hne.
Qed.

(** ** C2: the order of a pass *)

(** C2: when the flag is ["1"], a creation request is answered with a
    missing-asset payload listing [u1; u2], and both transfers and both
    registrations succeed, [create] sends, in this order: the request, the
    fetch of [u1], the registration of [u1], the fetch of [u2], the
    registration of [u2], and the same request again. *)
Theorem assets_in_order_then_same_request
    w n args st resp raw u1 u2 r1 c1 r2 c2 :
  let b := request_of args in
  let knownErr := MissingFirmwareAssetError_new raw in
  let h1 := trace st ++ [EvPost b; EvReadEnv] in
  let a1 := registration knownErr u1 (uploaded_file w (h1 ++ [EvFetch u1]) c1) in
  let h2 := h1 ++ [EvFetch u1; EvRegister a1] in
  let a2 := registration knownErr u2 (uploaded_file w (h2 ++ [EvFetch u2]) c2) in
  api_POST w (trace st) b = Fulfilled resp ->
  resp_error resp = Some (MissingAssetsPayload raw) ->
  raw_missingFwAssets raw = [u1; u2] ->
  strict_equals (env_FETCH_FIRMWARE_ASSETS w (trace st ++ [EvPost b])) "1" = true ->
  net_fetch w h1 u1 = Fulfilled r1 -> ok r1 = true -> body r1 = Some c1 ->
  stream_pipeTo w (h1 ++ [EvFetch u1]) (scratch_path w (h1 ++ [EvFetch u1])) c1
    = Fulfilled tt ->
  imageApi_create w (h1 ++ [EvFetch u1]) a1 = Fulfilled tt ->
  net_fetch w h2 u2 = Fulfilled r2 -> ok r2 = true -> body r2 = Some c2 ->
  stream_pipeTo w (h2 ++ [EvFetch u2]) (scratch_path w (h2 ++ [EvFetch u2])) c2
    = Fulfilled tt ->
  imageApi_create w (h2 ++ [EvFetch u2]) a2 = Fulfilled tt ->
  exists o st' rest,
    Devices.create w (S (S n)) args st = (o, st') /\
    trace st' =
      trace st ++ [EvPost b; EvReadEnv; EvFetch u1; EvRegister a1;
                   EvFetch u2; EvRegister a2; EvPost b] ++ rest /\
    post_body b = arg_body args /\
    post_patches b = [resolve_patches (arg_patches args)].
Proof.
  intros b knownErr h1 a1 h2 a2 HP Herr Hurls Hflag
    Hf1 Hok1 Hb1 Hpipe1 Hreg1 Hf2 Hok2 Hb2 Hpipe2 Hreg2.
  rewrite create_unfold. cbn zeta. fold b. rewrite HP, Herr.
  cbn [log trace]. rewrite Hflag. fold knownErr. rewrite Hurls.
  set (st1 := log EvReadEnv _).
  assert (Htr1 : trace st1 = h1).
  { unfold st1, h1. simpl. by rewrite <- app_assoc. }
  cbn [Devices.for_of]. unfold bind.
  rewrite (loop_body_registers w knownErr u1 st1 r1 c1); rewrite ?Htr1; try done.
  fold a1. rewrite Hreg1. cbn [settle].
  set (st2 := Build_State _ _).
  assert (Htr2 : trace st2 = h2) by reflexivity.
  rewrite (loop_body_registers w knownErr u2 st2 r2 c2); rewrite ?Htr2; try done.
  fold a2. rewrite Hreg2. cbn [settle ret].
  set (st3 := Build_State _ _).
  destruct (Devices.create w (S n) (retry_args args) st3) as [o st'] eqn:Hrec.
  apply create_first_event in Hrec as (rest & Htr').
  exists o, st', rest. split; [done|]. split; [|done].
  rewrite Htr'. unfold st3, h2, h1. cbn [trace]. rewrite request_of_retry.
  fold b. by rewrite <- !app_assoc.
Qed.

Lemma assets_in_order_then_same_request_witness :
  let b := request_of sample_args in
  let knownErr := MissingFirmwareAssetError_new (sample_raw [fw1; fw2]) in
  let h1 := [EvPost b; EvReadEnv] in
  let a1 := registration knownErr fw1
              (uploaded_file cooperative (h1 ++ [EvFetch fw1]) [x66; x77]) in
  let h2 := h1 ++ [EvFetch fw1; EvRegister a1] in
  let a2 := registration knownErr fw2
              (uploaded_file cooperative (h2 ++ [EvFetch fw2]) [x66; x77]) in
  exists o st' rest,
    Devices.create cooperative 2 sample_args start = (o, st') /\
    trace st' =
      [EvPost b; EvReadEnv; EvFetch fw1; EvRegister a1;
       EvFetch fw2; EvRegister a2; EvPost b] ++ rest /\
    post_body b = sample_body /\
    post_patches b = [jailbroken].
Proof.
  apply (assets_in_order_then_same_request cooperative 0 sample_args start
           {| resp_data := None; resp_error := Some (missing_payload [fw1; fw2]) |}
           (sample_raw [fw1; fw2]) fw1 fw2
           {| ok := true; body := Some [x66; x77] |} [x66; x77]
           {| ok := true; body := Some [x66; x77] |} [x66; x77]);
    reflexivity.
Defined.

(** ** C3: the opt-in gate *)

(** C3: when a creation request is answered with a missing-asset payload
    and the flag is not ["1"], [create] throws the remediation-disabled
    error; all it has sent is the request, and all it has done since is to
    read the flag: no fetch, no registration, no file. *)
Theorem disabled_remediation_throws w n args st resp raw :
  api_POST w (trace st) (request_of args) = Fulfilled resp ->
  resp_error resp = Some (MissingAssetsPayload raw) ->
  strict_equals
    (env_FETCH_FIRMWARE_ASSETS w (trace st ++ [EvPost (request_of args)])) "1" = false ->
  Devices.create w (S n) args st =
    (Thrown RemediationDisabledError,
     {| trace := trace st ++ [EvPost (request_of args); EvReadEnv];
        files := files st |}) /\
  RemediationDisabledError = ExnError remediation_disabled_message.
Proof.
  intros HP Herr Hflag. split; [|done].
  rewrite create_unfold. cbn zeta. rewrite HP, Herr.
  cbn [log trace]. rewrite Hflag. unfold log; simpl. by rewrite <- app_assoc.
Qed.

Lemma disabled_remediation_throws_witness :
  Devices.create gated 1 sample_args start =
    (Thrown RemediationDisabledError,
     {| trace := [EvPost (request_of sample_args); EvReadEnv]; files := ∅ |}).
Proof.
  apply (disabled_remediation_throws gated 0 sample_args start
           {| resp_data := None; resp_error := Some (missing_payload [fw1; fw2]) |}
           (sample_raw [fw1; fw2]));
    reflexivity.
Defined.

(** ** C4: no bound on the retries *)

(** C4: against a service that answers every creation request with a
    missing-asset payload, with the flag at ["1"] and no collaborator
    rejecting a call, [create] has neither returned nor thrown after any
    number of attempts, and it has sent one creation request per attempt. *)
Theorem create_never_settles w :
  (forall h b, reports_missing (api_POST w h b) = true) ->
  (forall h, strict_equals (env_FETCH_FIRMWARE_ASSETS w h) "1" = true) ->
  (forall h u, fulfilled (net_fetch w h u) = true) ->
  (forall h p c, fulfilled (stream_pipeTo w h p c) = true) ->
  (forall h a, fulfilled (imageApi_create w h a) = true) ->
  forall n args st, exists st',
    Devices.create w n args st = (Pending, st') /\
    count_posts (trace st') = count_posts (trace st) + n.
Proof.
  intros Hpost Hflag Hfetch Hpipe Hreg.
  induction n as [|n IH]; intros args st.
  { exists st. split; [done|lia]. }
  rewrite create_unfold. cbn zeta.
  specialize (Hpost (trace st) (request_of args)).
  destruct (api_POST w _ _) as [resp|]; [|discriminate]. simpl in Hpost.
  destruct (resp_error resp) as [[raw|raw]|]; try discriminate.
  rewrite Hflag.
  destruct (for_of_completes w (MissingFirmwareAssetError_new raw)
              (raw_missingFwAssets raw) Hfetch Hpipe Hreg
              (log EvReadEnv (log (EvPost (request_of args)) st)))
    as (st2 & -> & Hcount).
  destruct (IH (retry_args args) st2) as (st' & Hrun & Hcount').
  exists st'. split; [done|].
  rewrite Hcount', Hcount, log_log_trace, count_posts_app. simpl. lia.
Qed.

Lemma create_never_settles_witness :
  exists st',
    Devices.create stubborn 5 sample_args start = (Pending, st') /\
    count_posts (trace st') = 5.
Proof.
  apply (create_never_settles stubborn); intros; reflexivity.
Defined.

(** ** C5: a pass is complete before the retry *)

(** C5: wherever a run of [create] sends two creation requests with none
    in between, the second equals the first, which is the request of the
    call; the first was answered with a missing-asset payload while the
    flag read ["1"]; and what was sent in between is the reading of the
    flag and one turn per entry of the payload's list, in order: the fetch
    of the entry, followed by its registration exactly when the fetch
    answered [ok] with a body. *)
Theorem pass_complete_before_retry
    w n args st o st' before b1 mid b2 after :
  Devices.create w n args st = (o, st') ->
  trace st' = trace st ++ before ++ EvPost b1 :: mid ++ EvPost b2 :: after ->
  no_post mid = true ->
  b1 = request_of args /\ b2 = b1 /\
  exists resp raw evs,
    api_POST w (trace st ++ before) b1 = Fulfilled resp /\
    resp_error resp = Some (MissingAssetsPayload raw) /\
    mid = EvReadEnv :: evs /\
    Processed w (MissingFirmwareAssetError_new raw)
      (trace st ++ before ++ [EvPost b1; EvReadEnv]) (raw_missingFwAssets raw) evs /\
    fetched_urls evs = raw_missingFwAssets raw.
Proof.
  intros Hrun Htr Hmid.
  apply create_run in Hrun as (evs & Htr' & Hatt & _).
  rewrite Htr' in Htr. apply app_inv_head in Htr.
  destruct (attempts_consecutive _ _ _ _ Hatt _ _ _ _ _ Htr Hmid)
    as (-> & -> & resp & raw & evs' & HP & Herr & _ & -> & Hproc).
  split; [done|]. split; [done|].
  exists resp, raw, evs'. repeat split; try done.
  by eapply Processed_fetched.
Qed.

Lemma pass_complete_before_retry_witness :
  exists resp raw evs,
    api_POST half_reachable [] (request_of sample_args) = Fulfilled resp /\
    resp_error resp = Some (MissingAssetsPayload raw) /\
    fetched_urls evs = raw_missingFwAssets raw /\
    raw_missingFwAssets raw = [fw1; fw2].
Proof.
  destruct (pass_complete_before_retry half_reachable 3 sample_args start
              (fst (Devices.create half_reachable 3 sample_args start))
              (snd (Devices.create half_reachable 3 sample_args start))
              [] (request_of sample_args)
              [EvReadEnv; EvFetch fw1; EvFetch fw2;
               EvRegister
                 (registration (MissingFirmwareAssetError_new (sample_raw [fw1; fw2]))
                    fw2
                    (uploaded_file half_reachable
                       [EvPost (request_of sample_args); EvReadEnv;
                        EvFetch fw1; EvFetch fw2] [x66; x77]))]
              (request_of sample_args)
              [EvReadEnv; EvFetch fw1; EvPost (request_of sample_args);
               EvReadEnv; EvFetch fw1])
    as (_ & _ & resp & raw & evs & HP & Herr & _ & _ & Hfetched).
  - vm_compute. reflexivity.
  - vm_compute. reflexivity.
  - reflexivity.
  - exists resp, raw, evs. repeat split; try done.
    simpl in HP. injection HP as <-. simpl in Herr. by injection Herr as <-.
Defined.

(** ** C6: skipped transfers *)

(** C6: when the fetch of an asset answers with a non-success status or
    without a body, that turn of the loop returns normally having sent
    nothing but the fetch and written no file, and the loop goes on with
    the rest of the list, whose first entry is fetched next. *)
Theorem unsuccessful_fetch_is_skipped w knownErr u rest st r :
  net_fetch w (trace st) u = Fulfilled r ->
  ok r = false \/ body r = None ->
  Devices.loop_body w knownErr u st =
    (Returned tt, {| trace := trace st ++ [EvFetch u]; files := files st |}) /\
  Devices.for_of w knownErr (u :: rest) st =
    Devices.for_of w knownErr rest
      {| trace := trace st ++ [EvFetch u]; files := files st |} /\
  forall u' rest' o st',
    rest = u' :: rest' ->
    Devices.for_of w knownErr (u :: rest) st = (o, st') ->
    exists evs, trace st' = trace st ++ EvFetch u :: EvFetch u' :: evs.
Proof.
  intros Hf Hskip.
  assert (Hbody : Devices.loop_body w knownErr u st = (Returned tt, log (EvFetch u) st)).
  { rewrite loop_body_unfold. cbn zeta. rewrite Hf.
    destruct Hskip as [-> | ->]; [done|]. by destruct (ok r). }
  assert (Hloop : Devices.for_of w knownErr (u :: rest) st =
                  Devices.for_of w knownErr rest (log (EvFetch u) st)).
  { cbn [Devices.for_of]. unfold bind. by rewrite Hbody. }
  split; [done|]. split; [done|].
  intros u' rest' o st' -> Hrun. rewrite Hloop in Hrun.
  cbn [Devices.for_of] in Hrun. unfold bind in Hrun.
  destruct (Devices.loop_body w knownErr u' _) as [o1 st1] eqn:H1.
  rewrite loop_body_unfold in H1. cbn zeta in H1.
  assert (exists evs1, trace st1 = trace st ++ EvFetch u :: EvFetch u' :: evs1)
    as [evs1 Htr1].
  { cbn [log trace] in H1.
    destruct (net_fetch w _ u') as [r'|e]; [|injection H1 as <- <-].
    2:{ exists []. simpl. by rewrite <- app_assoc. }
    destruct (ok r'); [|injection H1 as <- <-].
    2:{ exists []. simpl. by rewrite <- app_assoc. }
    destruct (body r') as [content|]; [|injection H1 as <- <-].
    2:{ exists []. simpl. by rewrite <- app_assoc. }
    destruct (stream_pipeTo w _ _ content) as [[]|e]; [|injection H1 as <- <-].
    2:{ exists []. simpl. by rewrite <- app_assoc. }
    match type of H1 with settle _ (log (EvRegister ?a) _) = _ =>
      exists [EvRegister a] end.
    destruct (imageApi_create w _ _); simpl in H1; injection H1 as <- <-;
      simpl; by rewrite <- !app_assoc. }
  destruct o1 as [[]|e|]; [|injection Hrun as <- <-; eauto..].
  apply for_of_events in Hrun as (evs2 & Htr2 & _).
  exists (evs1 ++ evs2). rewrite Htr2, Htr1, <- app_assoc. done.
Qed.

Lemma unsuccessful_fetch_is_skipped_witness :
  Devices.loop_body half_reachable
    (MissingFirmwareAssetError_new (sample_raw [fw1; fw2])) fw1 start =
    (Returned tt, {| trace := [EvFetch fw1]; files := ∅ |}).
Proof.
  apply (unsuccessful_fetch_is_skipped half_reachable _ fw1 [fw2] start
           {| ok := false; body := Some [] |}).
  - reflexivity.
  - left. reflexivity.
Defined.

(** ** C7: a rejected registration *)

(** C7: when the registration of an entry is rejected, after the entries
    before it were processed and its own transfer succeeded, [create]
    throws that very rejection; the rejected registration is the last thing
    sent: no later entry is fetched or registered and the creation request
    is not sent again. *)
Theorem registration_failure_propagates
    w n args st resp raw processed u later st2 r content e :
  let b := request_of args in
  let knownErr := MissingFirmwareAssetError_new raw in
  let st1 := {| trace := trace st ++ [EvPost b; EvReadEnv]; files := files st |} in
  let h := trace st2 ++ [EvFetch u] in
  let a := registration knownErr u (uploaded_file w h content) in
  api_POST w (trace st) b = Fulfilled resp ->
  resp_error resp = Some (MissingAssetsPayload raw) ->
  strict_equals (env_FETCH_FIRMWARE_ASSETS w (trace st ++ [EvPost b])) "1" = true ->
  raw_missingFwAssets raw = processed ++ u :: later ->
  Devices.for_of w knownErr processed st1 = (Returned tt, st2) ->
  net_fetch w (trace st2) u = Fulfilled r -> ok r = true -> body r = Some content ->
  stream_pipeTo w h (scratch_path w h) content = Fulfilled tt ->
  imageApi_create w h a = Rejected e ->
  Devices.create w (S n) args st =
    (Thrown e,
     {| trace := trace st2 ++ [EvFetch u; EvRegister a];
        files := <[scratch_path w h := content]> (files st2) |}) /\
  count_posts (trace st2 ++ [EvFetch u; EvRegister a]) = count_posts (trace st) + 1.
Proof.
  intros b knownErr st1 h a HP Herr Hflag Hurls Hdone Hf Hok Hbody Hpipe Hreg.
  assert (Hst1 : log EvReadEnv (log (EvPost b) st) = st1).
  { unfold st1, log; simpl. by rewrite <- app_assoc. }
  split.
  - rewrite create_unfold. cbn zeta. fold b. rewrite HP, Herr.
    cbn [log trace]. rewrite Hflag. fold knownErr (log (EvPost b) st).
    rewrite Hst1, Hurls, for_of_app. unfold bind. rewrite Hdone.
    cbn [Devices.for_of]. unfold bind.
    rewrite (loop_body_registers w knownErr u st2 r content); try done.
    fold h a. by rewrite Hreg.
  - apply for_of_events in Hdone as (evs & Htr & Hev & _).
    apply loop_events_no_post, no_post_count in Hev.
    rewrite Htr. unfold st1. cbn [trace].
    rewrite !count_posts_app, Hev. simpl. lia.
Qed.

Lemma registration_failure_propagates_witness :
  let b := request_of sample_args in
  let knownErr := MissingFirmwareAssetError_new (sample_raw [fw1; fw2]) in
  let st2 := snd (Devices.for_of refusing_second knownErr [fw1]
                    {| trace := [EvPost b; EvReadEnv]; files := ∅ |}) in
  let h := trace st2 ++ [EvFetch fw2] in
  let a := registration knownErr fw2 (uploaded_file refusing_second h [x66; x77]) in
  Devices.create refusing_second 1 sample_args start =
    (Thrown (ExnRejected "upload refused"),
     {| trace := trace st2 ++ [EvFetch fw2; EvRegister a];
        files := <[scratch_path refusing_second h := [x66; x77]]> (files st2) |}) /\
  count_posts (trace st2 ++ [EvFetch fw2; EvRegister a]) = 1.
Proof.
  apply (registration_failure_propagates refusing_second 0 sample_args start
           {| resp_data := None; resp_error := Some (missing_payload [fw1; fw2]) |}
           (sample_raw [fw1; fw2]) [fw1] fw2 []
           (snd (Devices.for_of refusing_second
                   (MissingFirmwareAssetError_new (sample_raw [fw1; fw2])) [fw1]
                   {| trace := [EvPost (request_of sample_args); EvReadEnv];
                      files := ∅ |}))
           {| ok := true; body := Some [x66; x77] |} [x66; x77]
           (ExnRejected "upload refused"));
    reflexivity.
Defined.

(** ** C8: what is registered *)

(** C8: every registration sent in a run of [create] has type ["fwasset"],
    encoding ["plain"] and [encapsulated = false]; it directly follows the
    fetch of the URL it is named after, which answered [ok] with the body
    that is the content of the file submitted; and its project is the
    [projectId] of the error built from the payload that answered the
    latest creation request, whose list holds that URL. *)
Theorem registration_has_fixed_metadata
    w n args st o st' before a after :
  Devices.create w n args st = (o, st') ->
  trace st' = trace st ++ before ++ EvRegister a :: after ->
  img_type a = "fwasset" /\ img_encoding a = "plain" /\
  img_encapsulated a = false /\
  (exists h0 r content,
      trace st ++ before = h0 ++ [EvFetch (img_name a)] /\
      net_fetch w h0 (img_name a) = Fulfilled r /\
      ok r = true /\ body r = Some content /\
      file_bits (img_file a) = content) /\
  (exists hp b mid resp raw,
      trace st ++ before = hp ++ EvPost b :: mid /\ no_post mid = true /\
      api_POST w hp b = Fulfilled resp /\
      resp_error resp = Some (MissingAssetsPayload raw) /\
      classify (MissingAssetsPayload raw) =
        MissingAssetError (MissingFirmwareAssetError_new raw) /\
      img_project a = mfa_projectId (MissingFirmwareAssetError_new raw) /\
      In (img_name a) (raw_missingFwAssets raw)).
Proof.
  intros Hrun Htr.
  apply create_run in Hrun as (evs & Htr' & _ & Hev).
  rewrite Htr' in Htr. apply app_inv_head in Htr. subst evs.
  exact (each_event_at _ _ _ _ _ Hev).
Qed.

Lemma registration_has_fixed_metadata_witness :
  let a := registration (MissingFirmwareAssetError_new (sample_raw [fw1; fw2])) fw2
             (uploaded_file cooperative
                [EvPost (request_of sample_args); EvReadEnv; EvFetch fw1;
                 EvRegister
                   (registration (MissingFirmwareAssetError_new (sample_raw [fw1; fw2]))
                      fw1
                      (uploaded_file cooperative
                         [EvPost (request_of sample_args); EvReadEnv; EvFetch fw1]
                         [x66; x77]));
                 EvFetch fw2] [x66; x77]) in
  img_type a = "fwasset" /\ img_encoding a = "plain" /\
  img_encapsulated a = false /\ img_name a = fw2 /\ img_project a = "p1" /\
  file_bits (img_file a) = [x66; x77].
Proof.
  intros a.
  destruct (registration_has_fixed_metadata cooperative 2 sample_args start
              (fst (Devices.create cooperative 2 sample_args start))
              (snd (Devices.create cooperative 2 sample_args start))
              [EvPost (request_of sample_args); EvReadEnv; EvFetch fw1;
               EvRegister
                 (registration (MissingFirmwareAssetError_new (sample_raw [fw1; fw2]))
                    fw1
                    (uploaded_file cooperative
                       [EvPost (request_of sample_args); EvReadEnv; EvFetch fw1]
                       [x66; x77]));
               EvFetch fw2]
              a [EvPost (request_of sample_args)])
    as (Htype & Henc & Hencaps & _ & _).
  - vm_compute. reflexivity.
  - vm_compute. reflexivity.
  - by repeat split.
Defined.

(** ** C9: the flag *)

(** C9: at every attempt answered with a missing-asset payload, the
    variable is read then, after the request; the comparison holds exactly
    for the value ["1"] (not for ["true"], ["yes"] or an unset variable);
    with that value the attempt goes on with the loop
    and the retry, and with any other value, or none, it ends there in the
    remediation-disabled error.  The value read at one attempt does not
    stand for the next: when the retry is answered with a missing-asset
    payload again and the variable is no longer ["1"], the retry ends in
    the remediation-disabled error. *)
Theorem flag_is_read_at_each_attempt w n args st resp raw :
  api_POST w (trace st) (request_of args) = Fulfilled resp ->
  resp_error resp = Some (MissingAssetsPayload raw) ->
  let b := request_of args in
  let flag := env_FETCH_FIRMWARE_ASSETS w (trace st ++ [EvPost b]) in
  let st1 := {| trace := trace st ++ [EvPost b; EvReadEnv]; files := files st |} in
  let knownErr := MissingFirmwareAssetError_new raw in
  (strict_equals flag "1" = true <-> flag = Some "1") /\
  (strict_equals (Some "true") "1" = false /\
   strict_equals (Some "yes") "1" = false /\
   strict_equals None "1" = false) /\
  (flag = Some "1" ->
   Devices.create w (S n) args st =
     bind (Devices.for_of w knownErr (mfa_missingFwAssets knownErr))
          (fun _ => Devices.create w n (retry_args args)) st1) /\
  (Devices.create w (S n) args st = (Thrown RemediationDisabledError, st1) <->
   flag <> Some "1") /\
  (forall st2 resp2 raw2,
     flag = Some "1" ->
     Devices.for_of w knownErr (mfa_missingFwAssets knownErr) st1 = (Returned tt, st2) ->
     api_POST w (trace st2) b = Fulfilled resp2 ->
     resp_error resp2 = Some (MissingAssetsPayload raw2) ->
     env_FETCH_FIRMWARE_ASSETS w (trace st2 ++ [EvPost b]) <> Some "1" ->
     Devices.create w (S (S n)) args st =
       (Thrown RemediationDisabledError,
        {| trace := trace st2 ++ [EvPost b; EvReadEnv]; files := files st2 |})).
Proof.
  intros HP Herr b flag st1 knownErr. fold b in HP.
  assert (Hst1 : log EvReadEnv (log (EvPost b) st) = st1).
  { unfold st1, log; simpl. by rewrite <- app_assoc. }
  assert (Hon : flag = Some "1" -> forall m,
    Devices.create w (S m) args st =
      bind (Devices.for_of w knownErr (mfa_missingFwAssets knownErr))
           (fun _ => Devices.create w m (retry_args args)) st1).
  { intros Hflag m. rewrite create_unfold. cbn zeta. fold b. rewrite HP, Herr.
    cbn [log trace]. fold flag. rewrite (proj2 (strict_equals_1 flag) Hflag).
    fold (log (EvPost b) st). rewrite Hst1. unfold bind.
    by destruct (Devices.for_of _ _ _ _) as [[[]| |] ?]. }
  assert (Hoff : forall m args' (st' : State) resp' raw',
    request_of args' = b ->
    api_POST w (trace st') b = Fulfilled resp' ->
    resp_error resp' = Some (MissingAssetsPayload raw') ->
    env_FETCH_FIRMWARE_ASSETS w (trace st' ++ [EvPost b]) <> Some "1" ->
    Devices.create w (S m) args' st' =
      (Thrown RemediationDisabledError,
       {| trace := trace st' ++ [EvPost b; EvReadEnv]; files := files st' |})).
  { intros m args' st' resp' raw' Hb HP' Herr' Hflag.
    rewrite create_unfold. cbn zeta. rewrite Hb, HP', Herr'. cbn [log trace].
    destruct (strict_equals _ "1") eqn:Heq.
    - by apply strict_equals_1 in Heq.
    - unfold log; simpl. by rewrite <- app_assoc. }
  split; [apply strict_equals_1|]. split; [done|].
  split; [intros Hflag; by apply Hon|]. split.
  - split.
    + intros Hrun Hflag. rewrite (Hon Hflag) in Hrun. unfold bind in Hrun.
      destruct (Devices.for_of _ _ _ _) as [r1 st2] eqn:Hloop.
      pose proof Hloop as Hloop'.
      apply for_of_events in Hloop' as (evs & Htr & _ & _ & Hne & _).
      destruct r1 as [[]|e|]; [| |discriminate].
      * destruct n as [|m]; [discriminate|].
        apply create_first_event in Hrun as (evs' & Htr').
        rewrite Htr, <- app_assoc in Htr'. apply app_self_nil in Htr'.
        by destruct evs.
      * injection Hrun as _ <-. apply app_self_nil in Htr.
        destruct (mfa_missingFwAssets knownErr); [discriminate|]. by apply Hne.
    + intros Hflag. by eapply Hoff.
  - intros st2 resp2 raw2 Hflag Hloop HP2 Herr2 Hflag2.
    rewrite (Hon Hflag). unfold bind. rewrite Hloop. by eapply Hoff.
Qed.

Lemma flag_is_read_at_each_attempt_witness :
  Devices.create flipping 2 sample_args start =
    (Thrown RemediationDisabledError,
     {| trace := trace (snd (Devices.create flipping 1 sample_args start))
                 ++ [EvPost (request_of sample_args); EvReadEnv];
        files := files (snd (Devices.create flipping 1 sample_args start)) |}) /\
  Devices.create gated 1 sample_args start =
    (Thrown RemediationDisabledError,
     {| trace := [EvPost (request_of sample_args); EvReadEnv]; files := ∅ |}).
Proof.
  split.
  - destruct (flag_is_read_at_each_attempt flipping 0 sample_args start
      {| resp_data := None; resp_error := Some (missing_payload [fw1; fw2]) |}
      (sample_raw [fw1; fw2]) eq_refl eq_refl) as (_ & _ & _ & _ & Hnext).
    apply (Hnext (snd (Devices.create flipping 1 sample_args start))
             {| resp_data := None; resp_error := Some (missing_payload [fw2]) |}
             (sample_raw [fw2])).
    + reflexivity.
    + vm_compute. reflexivity.
    + reflexivity.
    + reflexivity.
    + vm_compute. discriminate.
  - destruct (flag_is_read_at_each_attempt gated 0 sample_args start
      {| resp_data := None; resp_error := Some (missing_payload [fw1; fw2]) |}
      (sample_raw [fw1; fw2]) eq_refl eq_refl) as (_ & _ & _ & [_ Hoff] & _).
    apply Hoff. vm_compute. discriminate.
Defined.

(** ** C10: [list] and [search] *)

(** C10: on an error response, [list] and [search] throw a plain Error
    whose message is the [error] field of the payload; nothing is returned,
    and nothing is sent or written after the request, whatever the payload
    carries. *)
Theorem list_and_search_throw_plain_error w st resp p :
  resp_error resp = Some p ->
  (api_GET w (trace st) None = Fulfilled resp ->
   Devices.list w st =
     (Thrown (ExnError (payload_error p)),
      {| trace := trace st ++ [EvGet None]; files := files st |})) /\
  (forall name,
   api_GET w (trace st) (Some name) = Fulfilled resp ->
   Devices.search w name st =
     (Thrown (ExnError (payload_error p)),
      {| trace := trace st ++ [EvGet (Some name)]; files := files st |})).
Proof.
  intros Herr. split; [|intros name]; intros HG;
    unfold Devices.list, Devices.search, bind, GET; rewrite HG; simpl;
    by rewrite Herr.
Qed.

Lemma list_and_search_throw_plain_error_witness :
  Devices.list cooperative start =
    (Thrown (ExnError "Missing firmware assets"),
     {| trace := [EvGet None]; files := ∅ |}) /\
  Devices.search cooperative "d1" start =
    (Thrown (ExnError "Missing firmware assets"),
     {| trace := [EvGet (Some "d1")]; files := ∅ |}).
Proof.
  destruct (list_and_search_throw_plain_error cooperative start
              {| resp_data := None; resp_error := Some (missing_payload [fw1]) |}
              (missing_payload [fw1]) eq_refl) as [Hlist Hsearch].
  split; [apply Hlist | apply Hsearch]; reflexivity.
Defined.

(** * Further properties *)

(** ** [fileFromPath] *)

Lemma append_cons (x : ascii) (a b : string) :
  String x a +:+ b = String x (a +:+ b).
Proof. reflexivity. Qed.

Lemma append_empty_l (a : string) : "" +:+ a = a.
Proof. reflexivity. Qed.

Lemma append_assoc (a b c : string) : (a +:+ b) +:+ c = a +:+ (b +:+ c).
Proof.
  induction a as [|x a IH]; [done|]. by rewrite !append_cons, IH.
Qed.

Lemma append_empty_r (a : string) : a +:+ "" = a.
Proof.
  induction a as [|x a IH]; [done|]. by rewrite append_cons, IH.
Qed.

Lemma has_slash_append (a b : string) :
  has_slash (a +:+ b) = has_slash a || has_slash b.
Proof.
  induction a as [|x a IH]; [done|].
  rewrite append_cons. simpl. by rewrite IH, orb_assoc.
Qed.

(** [split_pop] returns the part after the last slash: the whole string
    (after what was accumulated) when it has no slash. *)
Lemma split_pop_spec (s : string) : forall acc,
  has_slash acc = false ->
  has_slash (split_pop acc s) = false /\
  ((has_slash s = false /\ split_pop acc s = acc +:+ s) \/
   exists dir, s = dir +:+ "/" +:+ split_pop acc s).
Proof.
  induction s as [|c s IH]; intros acc Hacc; simpl.
  - split; [done|]. left. by rewrite append_empty_r.
  - destruct (Ascii.eqb_spec c "/") as [->|Hc]; simpl.
    + destruct (IH "" eq_refl) as [Hno [[Hs Heq]|[dir Hdir]]]; (split; [done|]).
      * right. exists "". by rewrite Heq.
      * right. exists (String "/" dir). by rewrite append_cons, <- Hdir.
    + assert (Hacc' : has_slash (acc +:+ String c "") = false).
      { rewrite has_slash_append, Hacc. simpl.
        by destruct (Ascii.eqb_spec c "/"). }
      destruct (IH _ Hacc') as [Hno [[Hs Heq]|[dir Hdir]]]; (split; [done|]).
      * left. split; [done|]. by rewrite Heq, append_assoc.
      * right. exists (String c dir). by rewrite append_cons, <- Hdir.
Qed.

Lemma split_pop_append (s1 s2 acc : string) :
  split_pop acc (s1 +:+ s2) = split_pop (split_pop acc s1) s2.
Proof.
  revert acc. induction s1 as [|c s1 IH]; intros acc; [done|].
  rewrite append_cons. simpl. by destruct (Ascii.eqb c "/").
Qed.

Lemma split_pop_path_join (dir file : string) :
  has_slash file = false ->
  split_pop "" (path_join dir file) = file.
Proof.
  intros Hfile. unfold path_join. rewrite split_pop_append.
  rewrite append_cons, append_empty_l. simpl.
  destruct (split_pop_spec file "" eq_refl) as [_ [[_ ->]|[d Hd]]]; [done|].
  apply (f_equal has_slash) in Hd. rewrite Hfile, has_slash_append in Hd.
  rewrite append_cons in Hd. simpl in Hd. by rewrite orb_true_r in Hd.
Qed.

(** X1: [fileFromPath] on a path that holds a file returns a [File] with
    the content of the file, the octet-stream type and the time of the
    call, and changes nothing; its name has no slash and is never empty:
    it is what follows the last slash of the path (the whole path when it
    has none), or ["file"] when that is empty.  On a path that holds no
    file the read is rejected and nothing is returned. *)
Theorem fileFromPath_wraps_the_file w path st :
  (forall content, files st !! path = Some content ->
     exists f tail,
       Devices.fileFromPath w path st = (Returned f, st) /\
       file_bits f = content /\
       file_type f = "application/octet-stream" /\
       file_lastModified f = Date_now w (trace st) /\
       has_slash tail = false /\
       (path = tail \/ exists dir, path = dir +:+ "/" +:+ tail) /\
       file_name f = (if String.eqb tail "" then "file" else tail) /\
       file_name f <> "" /\ has_slash (file_name f) = false) /\
  (files st !! path = None ->
     exists e, Devices.fileFromPath w path st = (Thrown e, st)).
Proof.
  split.
  - intros content Hfile.
    unfold Devices.fileFromPath, bind, readFile, now, ret. rewrite Hfile.
    eexists _, (split_pop "" path). split; [reflexivity|]. cbn [file_bits
      file_type file_lastModified file_name].
    destruct (split_pop_spec path "" eq_refl) as [Hno Hshape].
    repeat split; try done.
    + destruct Hshape as [[_ ->]|[dir Hdir]]; [by left|right; by exists dir].
    + unfold or_else. destruct (String.eqb_spec (split_pop "" path) ""); done.
    + unfold or_else. by destruct (String.eqb (split_pop "" path) "").
  - intros Hfile. unfold Devices.fileFromPath, bind, readFile. rewrite Hfile.
    by eexists.
Qed.

Lemma fileFromPath_wraps_the_file_witness :
  exists f,
    Devices.fileFromPath cooperative "/tmp/3-uuid.fwasset"
      {| trace := []; files := {[ "/tmp/3-uuid.fwasset" := [x66; x77] ]} |} =
      (Returned f,
       {| trace := []; files := {[ "/tmp/3-uuid.fwasset" := [x66; x77] ]} |}) /\
    file_bits f = [x66; x77] /\ file_name f = "3-uuid.fwasset".
Proof.
  destruct (fileFromPath_wraps_the_file cooperative "/tmp/3-uuid.fwasset"
              {| trace := []; files := {[ "/tmp/3-uuid.fwasset" := [x66; x77] ]} |})
    as [Hsome _].
  destruct (Hsome [x66; x77]) as (f & tail & Hrun & Hbits & _); [reflexivity|].
  exists f. split; [exact Hrun|]. split; [exact Hbits|].
  vm_compute in Hrun. by injection Hrun as <-.
Defined.

(** ** What a run of [create] sends *)

Lemma pass_run_events w h b resp raw evs :
  api_POST w h b = Fulfilled resp ->
  resp_error resp = Some (MissingAssetsPayload raw) ->
  strict_equals (env_FETCH_FIRMWARE_ASSETS w (h ++ [EvPost b])) "1" = true ->
  each_event (loop_event w (MissingFirmwareAssetError_new raw) (raw_missingFwAssets raw))
    (h ++ [EvPost b; EvReadEnv]) evs ->
  each_event (run_event w b) (h ++ [EvPost b; EvReadEnv]) evs.
Proof.
  intros HP Herr Hflag Hev. pose proof (loop_events_no_post _ _ _ _ _ Hev) as Hno.
  revert Hev. apply each_event_impl_at. intros before e after -> He.
  rewrite no_post_app in Hno. apply andb_prop in Hno as [Hno _].
  destruct e as [| | |u|a]; simpl in He; try done.
  - split; [|done]. exists h, b, (EvReadEnv :: before), resp, raw.
    rewrite <- app_assoc. by repeat split.
  - destruct He as (_ & h0 & r & content & _ & _ & _ & _ & Ha).
    split; [done|]. simpl. by rewrite Ha.
Qed.

Lemma create_run_events w n : forall args st o st',
  Devices.create w n args st = (o, st') ->
  exists evs, trace st' = trace st ++ evs /\
    each_event (run_event w (request_of args)) (trace st) evs.
Proof.
  induction n as [|n IH]; intros args st o st'.
  { simpl. intros [= <- <-]. exists []. by rewrite app_nil_r. }
  rewrite create_unfold. cbn zeta.
  set (b := request_of args).
  assert (Hlast : forall r : Outcome (option string),
    (r, log (EvPost b) st) = (o, st') ->
    exists evs, trace st' = trace st ++ evs /\
      each_event (run_event w b) (trace st) evs).
  { intros r [= <- <-]. exists [EvPost b]. by repeat split. }
  destruct (api_POST w (trace st) b) as [resp|e] eqn:HP; [|by apply Hlast].
  destruct (resp_error resp) as [[raw|raw]|] eqn:Herr; try by apply Hlast.
  assert (Hhead : each_event (run_event w b) (trace st) [EvPost b; EvReadEnv]).
  { repeat split. by exists (trace st), resp, raw. }
  destruct (strict_equals _ "1") eqn:Hflag.
  2:{ intros [= <- <-]. exists [EvPost b; EvReadEnv]. by rewrite log_log_trace. }
  destruct (Devices.for_of _ _ _ _) as [r1 st2] eqn:Hloop.
  apply for_of_events in Hloop as (evs & Htr & Hev & Hset & _).
  rewrite log_log_trace in Htr, Hev.
  cbn [log trace] in Hflag.
  pose proof (pass_run_events _ _ _ _ _ _ HP Herr Hflag Hev) as Hrun.
  destruct r1 as [[]|e|]; [|intros [= <- <-]|discriminate].
  - intros Hrec. apply IH in Hrec as (rest & Htr' & Hrest).
    rewrite request_of_retry in Hrest. fold b in Hrest.
    exists ([EvPost b; EvReadEnv] ++ evs ++ rest).
    rewrite Htr', Htr, <- !app_assoc. split; [done|].
    apply each_event_app. split; [done|].
    apply each_event_app. split; [done|].
    by rewrite Htr in Hrest.
  - exists ([EvPost b; EvReadEnv] ++ evs). rewrite Htr, <- app_assoc.
    split; [done|]. apply each_event_app. by split.
Qed.

(** X2: every creation request sent in a run of [create] is the request of
    the call: the body as it was given, and [patches] as a list of one
    element, which is [jailbroken] when the caller gave none. *)
Theorem every_request_is_the_same w n args st o st' before b after :
  Devices.create w n args st = (o, st') ->
  trace st' = trace st ++ before ++ EvPost b :: after ->
  b = request_of args /\
  post_body b = arg_body args /\
  (exists patches, post_patches b = [patches] /\
     (arg_patches args = None -> patches = jailbroken) /\
     (forall given, arg_patches args = Some given -> patches = given)).
Proof.
  intros Hrun Htr.
  apply create_run_events in Hrun as (evs & Htr' & Hev).
  rewrite Htr' in Htr. apply app_inv_head in Htr. subst evs.
  apply each_event_at in Hev as [_ ->].
  split; [done|]. split; [done|].
  exists (resolve_patches (arg_patches args)). split; [done|].
  split; [by intros ->|by intros given ->].
Qed.

Lemma every_request_is_the_same_witness :
  request_of sample_args = request_of sample_args /\
  post_body (request_of sample_args) = sample_body /\
  (exists patches, post_patches (request_of sample_args) = [patches] /\
     (arg_patches sample_args = None -> patches = jailbroken) /\
     (forall given, arg_patches sample_args = Some given -> patches = given)).
Proof.
  apply (every_request_is_the_same half_reachable 3 sample_args start
           (fst (Devices.create half_reachable 3 sample_args start))
           (snd (Devices.create half_reachable 3 sample_args start))
           [EvPost (request_of sample_args); EvReadEnv; EvFetch fw1; EvFetch fw2;
            EvRegister
              (registration (MissingFirmwareAssetError_new (sample_raw [fw1; fw2]))
                 fw2
                 (uploaded_file half_reachable
                    [EvPost (request_of sample_args); EvReadEnv;
                     EvFetch fw1; EvFetch fw2] [x66; x77]))]
           (request_of sample_args)
           [EvReadEnv; EvFetch fw1; EvPost (request_of sample_args);
            EvReadEnv; EvFetch fw1]).
  - vm_compute. reflexivity.
  - vm_compute. reflexivity.
Defined.

(** X3: [create] reads the environment variable only directly after a
    creation request that was answered with a missing-asset payload: not
    when creation succeeds, fails with another payload, or is rejected. *)
Theorem flag_read_only_after_missing_answer w n args st o st' before after :
  Devices.create w n args st = (o, st') ->
  trace st' = trace st ++ before ++ EvReadEnv :: after ->
  exists h resp raw,
    trace st ++ before = h ++ [EvPost (request_of args)] /\
    api_POST w h (request_of args) = Fulfilled resp /\
    resp_error resp = Some (MissingAssetsPayload raw).
Proof.
  intros Hrun Htr.
  apply create_run_events in Hrun as (evs & Htr' & Hev).
  rewrite Htr' in Htr. apply app_inv_head in Htr. subst evs.
  by apply each_event_at in Hev as [_ Hread].
Qed.

Lemma flag_read_only_after_missing_answer_witness :
  exists h resp raw,
    [EvPost (request_of sample_args)] = h ++ [EvPost (request_of sample_args)] /\
    api_POST gated h (request_of sample_args) = Fulfilled resp /\
    resp_error resp = Some (MissingAssetsPayload raw).
Proof.
  apply (flag_read_only_after_missing_answer gated 1 sample_args start
           (fst (Devices.create gated 1 sample_args start))
           (snd (Devices.create gated 1 sample_args start))
           [EvPost (request_of sample_args)] []).
  - vm_compute. reflexivity.
  - reflexivity.
Defined.

(** X4: [create] fetches only URLs that the service listed: every fetch of
    a run comes after a creation request that was answered with a
    missing-asset payload whose list holds the URL, with the flag read as
    ["1"] after that answer and no other creation request in between. *)
Theorem fetches_only_listed_urls w n args st o st' before u after :
  Devices.create w n args st = (o, st') ->
  trace st' = trace st ++ before ++ EvFetch u :: after ->
  exists h b mid resp raw,
    trace st ++ before = h ++ EvPost b :: mid /\ no_post mid = true /\
    api_POST w h b = Fulfilled resp /\
    resp_error resp = Some (MissingAssetsPayload raw) /\
    strict_equals (env_FETCH_FIRMWARE_ASSETS w (h ++ [EvPost b])) "1" = true /\
    In u (raw_missingFwAssets raw).
Proof.
  intros Hrun Htr.
  apply create_run_events in Hrun as (evs & Htr' & Hev).
  rewrite Htr' in Htr. apply app_inv_head in Htr. subst evs.
  by apply each_event_at in Hev as [Hfetch _].
Qed.

Lemma fetches_only_listed_urls_witness :
  exists h b mid resp raw,
    [EvPost (request_of sample_args); EvReadEnv; EvFetch fw1] = h ++ EvPost b :: mid /\
    no_post mid = true /\
    api_POST half_reachable h b = Fulfilled resp /\
    resp_error resp = Some (MissingAssetsPayload raw) /\
    strict_equals (env_FETCH_FIRMWARE_ASSETS half_reachable (h ++ [EvPost b])) "1" = true /\
    In fw2 (raw_missingFwAssets raw).
Proof.
  apply (fetches_only_listed_urls half_reachable 1 sample_args start
           (fst (Devices.create half_reachable 1 sample_args start))
           (snd (Devices.create half_reachable 1 sample_args start))
           [EvPost (request_of sample_args); EvReadEnv; EvFetch fw1] fw2
           [EvRegister
              (registration (MissingFirmwareAssetError_new (sample_raw [fw1; fw2]))
                 fw2
                 (uploaded_file half_reachable
                    [EvPost (request_of sample_args); EvReadEnv;
                     EvFetch fw1; EvFetch fw2] [x66; x77]))]).
  - vm_compute. reflexivity.
  - vm_compute. reflexivity.
Defined.

(** X5: the file of every registration sent in a run of [create] has the
    octet-stream type and the time of its reading as [lastModified]; when
    the UUID drawn for it holds no slash, its name is that UUID followed by
    [.fwasset], whatever the URL it was fetched from. *)
Theorem registered_file_is_the_scratch_file w n args st o st' before a after :
  Devices.create w n args st = (o, st') ->
  trace st' = trace st ++ before ++ EvRegister a :: after ->
  file_type (img_file a) = "application/octet-stream" /\
  file_lastModified (img_file a) = Date_now w (trace st ++ before) /\
  (has_slash (crypto_randomUUID w (trace st ++ before)) = false ->
   file_name (img_file a) = crypto_randomUUID w (trace st ++ before) +:+ ".fwasset").
Proof.
  intros Hrun Htr.
  apply create_run_events in Hrun as (evs & Htr' & Hev).
  rewrite Htr' in Htr. apply app_inv_head in Htr. subst evs.
  apply each_event_at in Hev as [_ ->]. cbn [uploaded_file file_type
    file_lastModified file_name]. split; [done|]. split; [done|].
  intros Huuid. unfold scratch_path. rewrite split_pop_path_join.
  - unfold or_else.
    destruct (String.eqb_spec (crypto_randomUUID w (trace st ++ before) +:+ ".fwasset") "")
      as [Hempty|]; [|done].
    by destruct (crypto_randomUUID w (trace st ++ before)).
  - by rewrite has_slash_append, Huuid.
Qed.

Lemma registered_file_is_the_scratch_file_witness :
  let a := registration (MissingFirmwareAssetError_new (sample_raw [fw1; fw2])) fw1
             (uploaded_file cooperative
                [EvPost (request_of sample_args); EvReadEnv; EvFetch fw1]
                [x66; x77]) in
  file_type (img_file a) = "application/octet-stream" /\
  file_lastModified (img_file a) = 3%Z /\
  file_name (img_file a) = "3-uuid.fwasset".
Proof.
  intros a.
  destruct (registered_file_is_the_scratch_file cooperative 1 sample_args start
              (fst (Devices.create cooperative 1 sample_args start))
              (snd (Devices.create cooperative 1 sample_args start))
              [EvPost (request_of sample_args); EvReadEnv; EvFetch fw1] a
              [EvFetch fw2;
               EvRegister
                 (registration (MissingFirmwareAssetError_new (sample_raw [fw1; fw2]))
                    fw2
                    (uploaded_file cooperative
                       [EvPost (request_of sample_args); EvReadEnv; EvFetch fw1;
                        EvRegister a; EvFetch fw2] [x66; x77]))])
    as (Htype & Htime & Hname).
  - vm_compute. reflexivity.
  - vm_compute. reflexivity.
  - split; [exact Htype|]. split; [exact Htime|]. apply Hname. reflexivity.
Defined.

(** ** How a run of [create] ends *)

(** X6: when the creation request is answered without an error, [create]
    returns the data of that answer: the request is all it has sent, the
    flag is not read, nothing is fetched, registered or written. *)
Theorem creation_without_error_returns w n args st resp :
  api_POST w (trace st) (request_of args) = Fulfilled resp ->
  resp_error resp = None ->
  Devices.create w (S n) args st =
    (Returned (resp_data resp),
     {| trace := trace st ++ [EvPost (request_of args)]; files := files st |}).
Proof.
  intros HP Herr. rewrite create_unfold. cbn zeta. by rewrite HP, Herr.
Qed.

Lemma creation_without_error_returns_witness :
  Devices.create ready 1 sample_args start =
    (Returned (Some "d1-instance"),
     {| trace := [EvPost (request_of sample_args)]; files := ∅ |}).
Proof.
  apply (creation_without_error_returns ready 0 sample_args start
           {| resp_data := Some "d1-instance"; resp_error := None |});
    reflexivity.
Defined.

(** X7: whatever [create] returns is the data of an answer without error
    to its own request, and that request is the last thing it sent. *)
Theorem returns_only_error_free_answer w n : forall args st d st',
  Devices.create w n args st = (Returned d, st') ->
  exists before resp,
    trace st' = trace st ++ before ++ [EvPost (request_of args)] /\
    api_POST w (trace st ++ before) (request_of args) = Fulfilled resp /\
    resp_error resp = None /\
    d = resp_data resp.
Proof.
  induction n as [|n IH]; intros args st d st'; [discriminate|].
  rewrite create_unfold. cbn zeta.
  destruct (api_POST w (trace st) (request_of args)) as [resp|e] eqn:HP;
    [|discriminate].
  destruct (resp_error resp) as [[raw|raw]|] eqn:Herr; [discriminate| |].
  - destruct (strict_equals _ "1"); [|discriminate].
    destruct (Devices.for_of _ _ _ _) as [r1 st2] eqn:Hloop.
    apply for_of_events in Hloop as (evs & Htr & _).
    rewrite log_log_trace in Htr.
    destruct r1 as [[]|e|]; [|discriminate..].
    intros Hrec. apply IH in Hrec as (before & resp' & Htr' & HP' & Herr' & ->).
    rewrite request_of_retry in Htr', HP'.
    exists ([EvPost (request_of args); EvReadEnv] ++ evs ++ before), resp'.
    rewrite Htr', Htr, <- !app_assoc. split; [done|].
    rewrite Htr, <- !app_assoc in HP'. by repeat split.
  - intros [= <- <-]. exists [], resp. rewrite app_nil_r. by repeat split.
Qed.

Lemma returns_only_error_free_answer_witness :
  exists before resp,
    trace (snd (Devices.create cooperative 2 sample_args start)) =
      before ++ [EvPost (request_of sample_args)] /\
    api_POST cooperative before (request_of sample_args) = Fulfilled resp /\
    resp_error resp = None /\
    Some "d1-instance" = resp_data resp.
Proof.
  apply (returns_only_error_free_answer cooperative 2 sample_args start
           (Some "d1-instance")
           (snd (Devices.create cooperative 2 sample_args start))).
  vm_compute. reflexivity.
Defined.




(** X9: a rejected [fetch] is not skipped: after the entries before it were
    processed, [create] throws that rejection with the fetch as the last
    thing sent; nothing is written or registered for the entry, no later
    entry is fetched and the creation request is not sent again. *)
Theorem rejected_fetch_aborts w n args st resp raw processed u later st2 e :
  let b := request_of args in
  let knownErr := MissingFirmwareAssetError_new raw in
  let st1 := {| trace := trace st ++ [EvPost b; EvReadEnv]; files := files st |} in
  api_POST w (trace st) b = Fulfilled resp ->
  resp_error resp = Some (MissingAssetsPayload raw) ->
  strict_equals (env_FETCH_FIRMWARE_ASSETS w (trace st ++ [EvPost b])) "1" = true ->
  raw_missingFwAssets raw = processed ++ u :: later ->
  Devices.for_of w knownErr processed st1 = (Returned tt, st2) ->
  net_fetch w (trace st2) u = Rejected e ->
  Devices.create w (S n) args st =
    (Thrown e, {| trace := trace st2 ++ [EvFetch u]; files := files st2 |}) /\
  count_posts (trace st2 ++ [EvFetch u]) = count_posts (trace st) + 1.
Proof.
  intros b knownErr st1 HP Herr Hflag Hurls Hdone Hf.
  assert (Hst1 : log EvReadEnv (log (EvPost b) st) = st1).
  { unfold st1, log; simpl. by rewrite <- app_assoc. }
  split.
  - rewrite create_unfold. cbn zeta. fold b. rewrite HP, Herr.
    cbn [log trace]. rewrite Hflag. fold knownErr (log (EvPost b) st).
    rewrite Hst1, Hurls, for_of_app. unfold bind. rewrite Hdone.
    cbn [Devices.for_of]. unfold bind.
    rewrite loop_body_unfold. cbn zeta. by rewrite Hf.
  - apply for_of_events in Hdone as (evs & Htr & Hev & _).
    apply loop_events_no_post, no_post_count in Hev.
    rewrite Htr. unfold st1. cbn [trace].
    rewrite !count_posts_app, Hev. simpl. lia.
Qed.

Lemma rejected_fetch_aborts_witness :
  Devices.create no_network 1 sample_args start =
    (Thrown (ExnRejected "fetch failed"),
     {| trace := [EvPost (request_of sample_args); EvReadEnv; EvFetch fw1];
        files := ∅ |}) /\
  count_posts [EvPost (request_of sample_args); EvReadEnv; EvFetch fw1] = 1.
Proof.
  apply (rejected_fetch_aborts no_network 0 sample_args start
           {| resp_data := None; resp_error := Some (missing_payload [fw1; fw2]) |}
           (sample_raw [fw1; fw2]) [] fw1 [fw2]
           {| trace := [EvPost (request_of sample_args); EvReadEnv]; files := ∅ |}
           (ExnRejected "fetch failed"));
    reflexivity.
Defined.

(** X10: when the transfer of a fetched body to the scratch file is
    rejected, [create] throws that rejection; the fetch is the last thing
    sent: the entry is not registered, no later entry is fetched and the
    creation request is not sent again. *)
Theorem rejected_transfer_aborts
    w n args st resp raw processed u later st2 r content e :
  let b := request_of args in
  let knownErr := MissingFirmwareAssetError_new raw in
  let st1 := {| trace := trace st ++ [EvPost b; EvReadEnv]; files := files st |} in
  let h := trace st2 ++ [EvFetch u] in
  api_POST w (trace st) b = Fulfilled resp ->
  resp_error resp = Some (MissingAssetsPayload raw) ->
  strict_equals (env_FETCH_FIRMWARE_ASSETS w (trace st ++ [EvPost b])) "1" = true ->
  raw_missingFwAssets raw = processed ++ u :: later ->
  Devices.for_of w knownErr processed st1 = (Returned tt, st2) ->
  net_fetch w (trace st2) u = Fulfilled r -> ok r = true -> body r = Some content ->
  stream_pipeTo w h (scratch_path w h) content = Rejected e ->
  exists st',
    Devices.create w (S n) args st = (Thrown e, st') /\
    trace st' = trace st2 ++ [EvFetch u] /\
    count_posts (trace st') = count_posts (trace st) + 1.
Proof.
  intros b knownErr st1 h HP Herr Hflag Hurls Hdone Hf Hok Hbody Hpipe.
  assert (Hst1 : log EvReadEnv (log (EvPost b) st) = st1).
  { unfold st1, log; simpl. by rewrite <- app_assoc. }
  exists (store (scratch_path w h) [] (log (EvFetch u) st2)).
  split; [|split; [done|]].
  - rewrite create_unfold. cbn zeta. fold b. rewrite HP, Herr.
    cbn [log trace]. rewrite Hflag. fold knownErr (log (EvPost b) st).
    rewrite Hst1, Hurls, for_of_app. unfold bind. rewrite Hdone.
    cbn [Devices.for_of]. unfold bind.
    rewrite loop_body_unfold. cbn zeta. rewrite Hf, Hok, Hbody.
    cbn [log trace]. fold h. by rewrite Hpipe.
  - apply for_of_events in Hdone as (evs & Htr & Hev & _).
    apply loop_events_no_post, no_post_count in Hev.
    cbn [store log trace]. rewrite Htr. unfold st1. cbn [trace].
    rewrite !count_posts_app, Hev. simpl. lia.
Qed.

Lemma rejected_transfer_aborts_witness :
  exists st',
    Devices.create disk_full 1 sample_args start = (Thrown (ExnRejected "ENOSPC"), st') /\
    trace st' = [EvPost (request_of sample_args); EvReadEnv; EvFetch fw1] /\
    count_posts (trace st') = 1.
Proof.
  apply (rejected_transfer_aborts disk_full 0 sample_args start
           {| resp_data := None; resp_error := Some (missing_payload [fw1; fw2]) |}
           (sample_raw [fw1; fw2]) [] fw1 [fw2]
           {| trace := [EvPost (request_of sample_args); EvReadEnv]; files := ∅ |}
           {| ok := true; body := Some [x66; x77] |} [x66; x77]
           (ExnRejected "ENOSPC"));
    reflexivity.
Defined.

(** ** The loop *)

Lemma fetched_urls_app evs1 evs2 :
  fetched_urls (evs1 ++ evs2) = fetched_urls evs1 ++ fetched_urls evs2.
Proof.
  induction evs1 as [|[] evs1 IH]; simpl; auto. by rewrite IH.
Qed.

Lemma loop_body_fetches_once w knownErr u st o st' :
  Devices.loop_body w knownErr u st = (o, st') ->
  exists evs, trace st' = trace st ++ evs /\ fetched_urls evs = [u].
Proof.
  rewrite loop_body_unfold. cbn zeta.
  assert (Hone : forall (r : Outcome unit) (fs : gmap string (list byte)),
    (r, {| trace := trace st ++ [EvFetch u]; files := fs |}) = (o, st') ->
    exists evs, trace st' = trace st ++ evs /\ fetched_urls evs = [u]).
  { intros r fs [= <- <-]. by exists [EvFetch u]. }
  destruct (net_fetch w (trace st) u) as [r|e]; [|by apply Hone].
  destruct (ok r); [|by apply Hone].
  destruct (body r) as [content|]; [|by apply Hone].
  destruct (stream_pipeTo w _ _ content) as [[]|e]; [|by apply Hone].
  set (a := registration _ _ _). intros Hrun. exists [EvFetch u; EvRegister a].
  split; [|done].
  destruct (imageApi_create w _ a); simpl in Hrun; injection Hrun as _ <-;
    simpl; by rewrite <- app_assoc.
Qed.

(** X11: however the loop ends, the URLs it has fetched are a beginning of
    the list, each fetched once and in the order of the list; they are the
    whole list when the loop returns. *)
Theorem loop_fetches_a_prefix w knownErr urls : forall st o st',
  Devices.for_of w knownErr urls st = (o, st') ->
  exists evs rest,
    trace st' = trace st ++ evs /\
    urls = fetched_urls evs ++ rest /\
    (o = Returned tt -> rest = []).
Proof.
  induction urls as [|u urls IH]; intros st o st'.
  { intros [= <- <-]. exists [], []. by rewrite app_nil_r. }
  cbn [Devices.for_of]. unfold bind.
  destruct (Devices.loop_body w knownErr u st) as [o1 st1] eqn:H1.
  apply loop_body_fetches_once in H1 as (evs1 & Htr1 & Hf1).
  destruct o1 as [[]|e|]; [|intros [= <- <-]..].
  - intros Hrest. apply IH in Hrest as (evs2 & rest & Htr2 & Hurls & Hret).
    exists (evs1 ++ evs2), rest. rewrite Htr2, Htr1, <- app_assoc.
    split; [done|]. rewrite fetched_urls_app, Hf1. simpl.
    split; [by rewrite <- Hurls|done].
  - exists evs1, urls. rewrite Hf1. by repeat split.
  - exists evs1, urls. rewrite Hf1. by repeat split.
Qed.

Lemma loop_fetches_a_prefix_witness :
  exists evs rest,
    trace (snd (Devices.for_of refusing_second
                  (MissingFirmwareAssetError_new (sample_raw [fw1; fw2; fw1]))
                  [fw1; fw2; fw1] start)) = [] ++ evs /\
    [fw1; fw2; fw1] = fetched_urls evs ++ rest /\
    (Thrown (ExnRejected "upload refused") = Returned tt -> rest = []).
Proof.
  apply (loop_fetches_a_prefix refusing_second
           (MissingFirmwareAssetError_new (sample_raw [fw1; fw2; fw1]))
           [fw1; fw2; fw1] start).
  vm_compute. reflexivity.
Defined.

(** ** Files *)








(** ** Retries *)

(** X13: a missing-asset payload whose list is empty starts a pass that
    does nothing, and the request is sent again at once.  Against a
    service that keeps answering so, with the flag at ["1"], [create] has
    neither returned nor thrown after any number of attempts, and all it
    has sent is, per attempt, the request and the reading of the flag:
    nothing is fetched or registered, and no file is touched. *)
Theorem empty_list_is_retried_at_once w args :
  (forall h, exists resp raw,
     api_POST w h (request_of args) = Fulfilled resp /\
     resp_error resp = Some (MissingAssetsPayload raw) /\
     raw_missingFwAssets raw = []) ->
  (forall h, strict_equals (env_FETCH_FIRMWARE_ASSETS w h) "1" = true) ->
  forall n st,
    Devices.create w n args st =
      (Pending,
       {| trace := trace st ++
                   concat (replicate n [EvPost (request_of args); EvReadEnv]);
          files := files st |}).
Proof.
  intros Hpost Hflag n. revert args Hpost.
  induction n as [|n IH]; intros args Hpost st.
  { simpl. rewrite app_nil_r. by destruct st. }
  rewrite create_unfold. cbn zeta.
  destruct (Hpost (trace st)) as (resp & raw & -> & -> & Hempty).
  rewrite Hflag. cbn [MissingFirmwareAssetError_new]. rewrite Hempty.
  cbn [Devices.for_of ret]. rewrite (IH (retry_args args)).
  - change (request_of (retry_args args)) with (request_of args).
    rewrite log_log_trace. cbn [files log replicate concat].
    by rewrite <- app_assoc.
  - exact Hpost.
Qed.

Lemma empty_list_is_retried_at_once_witness :
  Devices.create empty_list_enabled 2 sample_args start =
    (Pending,
     {| trace := [EvPost (request_of sample_args); EvReadEnv;
                  EvPost (request_of sample_args); EvReadEnv];
        files := ∅ |}).
Proof.
  apply (empty_list_is_retried_at_once empty_list_enabled sample_args).
  - intros h. exists {| resp_data := None; resp_error := Some (missing_payload []) |},
      (sample_raw []). repeat split; reflexivity.
  - intros h. reflexivity.
Defined.

(** X14: when a pass over the missing assets completes and the request,
    sent again, is answered without an error, [create] returns the data of
    that second answer, having sent nothing after it. *)
Theorem remediation_then_success w n args st resp raw st2 resp2 :
  let b := request_of args in
  let knownErr := MissingFirmwareAssetError_new raw in
  let st1 := {| trace := trace st ++ [EvPost b; EvReadEnv]; files := files st |} in
  api_POST w (trace st) b = Fulfilled resp ->
  resp_error resp = Some (MissingAssetsPayload raw) ->
  strict_equals (env_FETCH_FIRMWARE_ASSETS w (trace st ++ [EvPost b])) "1" = true ->
  Devices.for_of w knownErr (raw_missingFwAssets raw) st1 = (Returned tt, st2) ->
  api_POST w (trace st2) b = Fulfilled resp2 ->
  resp_error resp2 = None ->
  Devices.create w (S (S n)) args st =
    (Returned (resp_data resp2),
     {| trace := trace st2 ++ [EvPost b]; files := files st2 |}) /\
  count_posts (trace st2 ++ [EvPost b]) = count_posts (trace st) + 2.
Proof.
  intros b knownErr st1 HP Herr Hflag Hloop HP2 Herr2.
  assert (Hst1 : log EvReadEnv (log (EvPost b) st) = st1).
  { unfold st1, log; simpl. by rewrite <- app_assoc. }
  split.
  - rewrite create_unfold. cbn zeta. fold b. rewrite HP, Herr.
    cbn [log trace]. rewrite Hflag. fold knownErr (log (EvPost b) st).
    rewrite Hst1, Hloop, create_unfold. cbn zeta.
    change (request_of (retry_args args)) with b. by rewrite HP2, Herr2.
  - apply for_of_events in Hloop as (evs & Htr & Hev & _).
    apply loop_events_no_post, no_post_count in Hev.
    rewrite Htr. unfold st1. cbn [trace].
    rewrite !count_posts_app, Hev. simpl. lia.
Qed.

Lemma remediation_then_success_witness :
  let st2 := snd (Devices.for_of cooperative
                    (MissingFirmwareAssetError_new (sample_raw [fw1; fw2])) [fw1; fw2]
                    {| trace := [EvPost (request_of sample_args); EvReadEnv];
                       files := ∅ |}) in
  Devices.create cooperative 2 sample_args start =
    (Returned (Some "d1-instance"),
     {| trace := trace st2 ++ [EvPost (request_of sample_args)];
        files := files st2 |}) /\
  count_posts (trace st2 ++ [EvPost (request_of sample_args)]) = 2.
Proof.
  apply (remediation_then_success cooperative 0 sample_args start
           {| resp_data := None; resp_error := Some (missing_payload [fw1; fw2]) |}
           (sample_raw [fw1; fw2])
           (snd (Devices.for_of cooperative
                   (MissingFirmwareAssetError_new (sample_raw [fw1; fw2])) [fw1; fw2]
                   {| trace := [EvPost (request_of sample_args); EvReadEnv];
                      files := ∅ |}))
           {| resp_data := Some "d1-instance"; resp_error := None |});
    reflexivity.
Defined.

(** ** [list] and [search] *)

(** X15: [list] sends one GET without a query and [search] one GET with the
    name as the query; neither sends anything else nor touches a file.
    What they return is the data of an answer without error; what they
    throw is the rejection of the GET, or a plain Error with the [error]
    field of the payload that answered. *)
Theorem list_and_search_outcomes w st q o st' :
  match q with
  | None => Devices.list w st
  | Some name => Devices.search w name st
  end = (o, st') ->
  st' = {| trace := trace st ++ [EvGet q]; files := files st |} /\
  match o with
  | Returned d =>
      exists resp, api_GET w (trace st) q = Fulfilled resp /\
        resp_error resp = None /\ d = resp_data resp
  | Thrown e =>
      api_GET w (trace st) q = Rejected e \/
      exists resp p, api_GET w (trace st) q = Fulfilled resp /\
        resp_error resp = Some p /\ e = ExnError (payload_error p)
  | Pending => False
  end.
Proof.
  assert (Hrun : match q with
                 | None => Devices.list w st
                 | Some name => Devices.search w name st
                 end =
                 match api_GET w (trace st) q with
                 | Rejected e => (Thrown e, log (EvGet q) st)
                 | Fulfilled resp =>
                     match resp_error resp with
                     | Some p => (Thrown (ExnError (payload_error p)), log (EvGet q) st)
                     | None => (Returned (resp_data resp), log (EvGet q) st)
                     end
                 end).
  { destruct q as [name|]; unfold Devices.list, Devices.search, bind, GET;
      (destruct (api_GET w (trace st) _) as [resp|e]; [|done]);
      simpl; by destruct (resp_error resp). }
  rewrite Hrun. clear Hrun.
  destruct (api_GET w (trace st) q) as [resp|e] eqn:HG.
  - destruct (resp_error resp) as [p|] eqn:Herr; intros [= <- <-]; (split; [done|]).
    + right. by exists resp, p.
    + by exists resp.
  - intros [= <- <-]. split; [done|]. by left.
Qed.

Lemma list_and_search_outcomes_witness :
  snd (Devices.search listing "d1" start) =
    {| trace := [EvGet (Some "d1")]; files := ∅ |} /\
  exists resp, api_GET listing [] (Some "d1") = Fulfilled resp /\
    resp_error resp = None /\ Some "d1" = resp_data resp.
Proof.
  apply (list_and_search_outcomes listing start (Some "d1") (Returned (Some "d1"))
           (snd (Devices.search listing "d1" start))).
  reflexivity.
Defined.

(** ** Scratch files are left behind *)

Lemma snoc_split {A} (evs before after : list A) (e x : A) :
  evs ++ [e] = before ++ x :: after ->
  (after = [] /\ e = x /\ evs = before) \/
  (exists after', after = after' ++ [e] /\ evs = before ++ x :: after').
Proof.
  destruct after as [|y after _] using rev_ind; intros Heq.
  - left. apply app_inj_tail in Heq as [-> ->]. done.
  - right. exists after.
    change (before ++ x :: after ++ [y]) with (before ++ (x :: after) ++ [y]) in Heq.
    rewrite app_assoc in Heq. apply app_inj_tail in Heq as [-> ->]. done.
Qed.

Lemma scratch_kept_start w st : scratch_kept w (trace st) st.
Proof.
  exists []. split; [by rewrite app_nil_r|]. intros before a after Heq.
  by destruct before.
Qed.

Lemma scratch_kept_log w base e st :
  (forall a, e <> EvRegister a) ->
  scratch_kept w base st -> scratch_kept w base (log e st).
Proof.
  intros He (evs & Htr & Hkept). exists (evs ++ [e]). split.
  - simpl. by rewrite Htr, <- app_assoc.
  - intros before a after Heq.
    apply snoc_split in Heq as [(_ & -> & _)|(after' & _ & ->)].
    + by destruct (He a).
    + simpl. by eapply Hkept.
Qed.

Lemma scratch_kept_store w base p content st :
  scratch_kept w base st -> scratch_kept w base (store p content st).
Proof.
  intros (evs & Htr & Hkept). exists evs. split; [done|].
  intros before a after Heq. simpl.
  destruct (decide (p = scratch_path w (base ++ before))) as [->|Hne].
  - rewrite lookup_insert_eq. by eexists.
  - rewrite lookup_insert_ne; [|done]. by eapply Hkept.
Qed.

Lemma scratch_kept_register w base a content st :
  scratch_kept w base st ->
  scratch_kept w base
    (log (EvRegister a) (store (scratch_path w (trace st)) content st)).
Proof.
  intros Hst. pose proof Hst as (evs & Htr & _).
  apply (scratch_kept_store _ _ (scratch_path w (trace st)) content) in Hst
    as (evs' & Htr' & Hkept).
  simpl in Htr'. rewrite Htr in Htr'. apply app_inv_head in Htr'. subst evs'.
  exists (evs ++ [EvRegister a]). split.
  - simpl. by rewrite Htr, <- app_assoc.
  - intros before a' after Heq.
    apply snoc_split in Heq as [(_ & _ & ->)|(after' & _ & ->)].
    + simpl. rewrite <- Htr, lookup_insert_eq. by eexists.
    + by eapply Hkept.
Qed.

Lemma loop_body_keeps_scratch w knownErr base u st o st' :
  scratch_kept w base st ->
  Devices.loop_body w knownErr u st = (o, st') ->
  scratch_kept w base st'.
Proof.
  intros Hst. rewrite loop_body_unfold. cbn zeta.
  assert (Hst1 : scratch_kept w base (log (EvFetch u) st)).
  { by apply scratch_kept_log. }
  destruct (net_fetch w (trace st) u) as [r|e]; [|by intros [= <- <-]].
  destruct (ok r); [|by intros [= <- <-]].
  destruct (body r) as [content|]; [|by intros [= <- <-]].
  destruct (stream_pipeTo w _ _ content) as [[]|e].
  2:{ intros [= <- <-]. by apply scratch_kept_store. }
  intros Hrun.
  assert (st' = log (EvRegister
                       (registration knownErr u
                          (uploaded_file w (trace (log (EvFetch u) st)) content)))
                  (store (scratch_path w (trace (log (EvFetch u) st))) content
                     (log (EvFetch u) st))) as ->.
  { destruct (imageApi_create w _ _); simpl in Hrun; by injection Hrun as _ <-. }
  by apply scratch_kept_register.
Qed.

Lemma for_of_keeps_scratch w knownErr base urls : forall st o st',
  scratch_kept w base st ->
  Devices.for_of w knownErr urls st = (o, st') ->
  scratch_kept w base st'.
Proof.
  induction urls as [|u urls IH]; intros st o st' Hst.
  { by intros [= <- <-]. }
  cbn [Devices.for_of]. unfold bind.
  destruct (Devices.loop_body w knownErr u st) as [o1 st1] eqn:H1.
  eapply loop_body_keeps_scratch in H1; [|exact Hst].
  destruct o1 as [[]|e|]; [|by intros [= <- <-]..].
  by apply IH.
Qed.

Lemma create_keeps_scratch w base n : forall args st o st',
  scratch_kept w base st ->
  Devices.create w n args st = (o, st') ->
  scratch_kept w base st'.
Proof.
  induction n as [|n IH]; intros args st o st' Hst.
  { by intros [= <- <-]. }
  rewrite create_unfold. cbn zeta.
  assert (Hst0 : scratch_kept w base (log (EvPost (request_of args)) st)).
  { by apply scratch_kept_log. }
  assert (Hst1 : scratch_kept w base
                   (log EvReadEnv (log (EvPost (request_of args)) st))).
  { by apply scratch_kept_log. }
  destruct (api_POST w _ _) as [resp|e]; [|by intros [= <- <-]].
  destruct (resp_error resp) as [[raw|raw]|]; try by intros [= <- <-].
  destruct (strict_equals _ "1"); [|by intros [= <- <-]].
  destruct (Devices.for_of _ _ _ _) as [r1 st2] eqn:Hloop.
  eapply for_of_keeps_scratch in Hloop; [|exact Hst1].
  destruct r1 as [[]|e|]; [|by intros [= <- <-]..].
  by apply IH.
Qed.

(** X16: scratch files are left behind: when a run of [create] ends,
    however it ends, the scratch file of every registration it has sent
    still exists. *)
Theorem scratch_files_are_left_behind w n args st o st' before a after :
  Devices.create w n args st = (o, st') ->
  trace st' = trace st ++ before ++ EvRegister a :: after ->
  is_Some (files st' !!
             (os_tmpdir w +:+ "/" +:+
              crypto_randomUUID w (trace st ++ before) +:+ ".fwasset")).
Proof.
  intros Hrun Htr.
  apply (create_keeps_scratch w (trace st)) in Hrun as (evs & Htr' & Hkept);
    [|apply scratch_kept_start].
  rewrite Htr' in Htr. apply app_inv_head in Htr. by eapply Hkept.
Qed.

Lemma scratch_files_are_left_behind_witness :
  is_Some (files (snd (Devices.create cooperative 2 sample_args start))
             !! "/tmp/3-uuid.fwasset").
Proof.
  apply (scratch_files_are_left_behind cooperative 2 sample_args start
           (fst (Devices.create cooperative 2 sample_args start))
           (snd (Devices.create cooperative 2 sample_args start))
           [EvPost (request_of sample_args); EvReadEnv; EvFetch fw1]
           (registration (MissingFirmwareAssetError_new (sample_raw [fw1; fw2])) fw1
              (uploaded_file cooperative
                 [EvPost (request_of sample_args); EvReadEnv; EvFetch fw1]
                 [x66; x77]))
           [EvFetch fw2;
            EvRegister
              (registration (MissingFirmwareAssetError_new (sample_raw [fw1; fw2]))
                 fw2
                 (uploaded_file cooperative
                    [EvPost (request_of sample_args); EvReadEnv; EvFetch fw1;
                     EvRegister
                       (registration
                          (MissingFirmwareAssetError_new (sample_raw [fw1; fw2])) fw1
                          (uploaded_file cooperative
                             [EvPost (request_of sample_args); EvReadEnv; EvFetch fw1]
                             [x66; x77]));
                     EvFetch fw2] [x66; x77]));
            EvPost (request_of sample_args)]).
  - vm_compute. reflexivity.
  - vm_compute. reflexivity.
Defined.
